(** * Hidden-service endpoint of llarp (src/llarp/service/endpoint.cpp)

    A shallow embedding of the session cache, the introset publish gate,
    the pending-lookup table and the per-remote outbound context, with the
    properties of the specification stated over it.

    Conventions.
    - [uint64_t] and [llarp_time_t] values are integers of [Z] in
      [0, 2^64); every operation that can leave the range is wrapped
      explicitly ([U64.sub], [U64.succ]).
    - Fixed-size byte buffers ([RouterID], [PathID_t], [Address],
      [ConvoTag], [Tag], keys) are the numbers their bytes spell.
    - A call that leaves this translation unit (path builder, DHT send,
      lookup handlers, hooks) is recorded as an event, in call order.
    - What the router, the clock and the random generator answer during a
      call is read from an [Env] record. *)

From stdpp Require Import gmap list strings.
From Stdlib Require Import ZArith Lia Sorted.

Open Scope Z_scope.

(** ** 64-bit unsigned arithmetic *)

Module U64.

Definition modulus : Z := 2 ^ 64.

Definition max : Z := modulus - 1.

Definition wrap (z : Z) : Z := z mod modulus.

(** [a - b] on [uint64_t] operands. *)
Definition sub (a b : Z) : Z := wrap (a - b).

(** [++a] on a [uint64_t]. *)
Definition succ (a : Z) : Z := wrap (a + 1).

Definition in_range (z : Z) : Prop := 0 <= z < modulus.

End U64.

Definition llarp_time_t : Type := Z.
Definition RouterID : Type := Z.
Definition PathID_t : Type := Z.
Definition Address : Type := Z.
Definition ConvoTag : Type := Z.
Definition Tag : Type := Z.
Definition SharedSecret : Type := Z.
Definition PQPubKey : Type := Z.

(** ** Data model *)

Module ServiceInfo.

Record t : Type := mk { enckey : Z; signkey : Z }.

#[global] Instance eq_dec : EqDecision t.
Proof. solve_decision. Defined.

Definition zero : t := mk 0 0.

End ServiceInfo.

Module Introduction.

Record t : Type := mk { router : RouterID; pathID : PathID_t; expiresAt : llarp_time_t }.

#[global] Instance eq_dec : EqDecision t.
Proof. solve_decision. Defined.

(** Modelled from the spec: [Introduction::Clear] is declared outside
    endpoint.cpp; a cleared introduction is the one of a context in state
    NoIntroSelected, with every field zero. *)
Definition Clear : t := mk 0 0 0.

(** Modelled from the spec: "An Introduction is expired when
    now >= expiresAt". *)
Definition IsExpired (now : llarp_time_t) (i : t) : bool := expiresAt i <=? now.

End Introduction.

Module IntroSet.

Record t : Type := mk {
  A : ServiceInfo.t;
  I : list Introduction.t;
  K : PQPubKey;
  topic : Tag;
  lastSignedAt : llarp_time_t;
  signature : Z
}.

#[global] Instance eq_dec : EqDecision t.
Proof. solve_decision. Defined.

Definition set_I (l : list Introduction.t) (s : t) : t :=
  mk (A s) l (K s) (topic s) (lastSignedAt s) (signature s).

Definition set_topic (tg : Tag) (s : t) : t :=
  mk (A s) (I s) (K s) tg (lastSignedAt s) (signature s).

(** Modelled from the spec: [IntroSet::HasExpiredIntros] is declared outside
    endpoint.cpp; "An IntroSet HasExpiredIntros(now) if any of its I is
    expired". *)
Definition HasExpiredIntros (now : llarp_time_t) (s : t) : bool :=
  existsb (Introduction.IsExpired now) (I s).

(** Modelled from the spec: [IntroSet::IsNewerThan] is declared outside
    endpoint.cpp; "accept only if newer.lastSignedAt >
    current.lastSignedAt". *)
Definition IsNewerThan (s other : t) : bool := lastSignedAt other <? lastSignedAt s.

End IntroSet.

(** The crypto context of the router, [m_Router->crypto]: the two entry
    points this file reaches, as the functions they compute. *)
Record llarp_crypto : Type := {
  VerifySignature : IntroSet.t -> bool;
  SignIntroSet : ServiceInfo.t -> IntroSet.t -> option IntroSet.t
}.

Module Session.

Record t : Type := mk {
  remote : ServiceInfo.t;
  intro : Introduction.t;
  sharedKey : SharedSecret;
  seqno : Z;
  lastUsed : llarp_time_t
}.

(** [Session{}]: value-initialised, so the sequence number starts at 0. *)
Definition empty : t := mk ServiceInfo.zero Introduction.Clear 0 0 0.

Definition set_remote (v : ServiceInfo.t) (s : t) : t :=
  mk v (intro s) (sharedKey s) (seqno s) (lastUsed s).
Definition set_intro (v : Introduction.t) (s : t) : t :=
  mk (remote s) v (sharedKey s) (seqno s) (lastUsed s).
Definition set_sharedKey (v : SharedSecret) (s : t) : t :=
  mk (remote s) (intro s) v (seqno s) (lastUsed s).
Definition set_seqno (v : Z) (s : t) : t :=
  mk (remote s) (intro s) (sharedKey s) v (lastUsed s).
Definition set_lastUsed (v : llarp_time_t) (s : t) : t :=
  mk (remote s) (intro s) (sharedKey s) (seqno s) v.

End Session.

(** A pending lookup, behind the [IServiceLookup] interface. Its deadline
    test [IsTimedOut] is a member of the object; [HandleResponse] is
    virtual and shows up as an event when it is called. *)
Module IServiceLookup.

Record t : Type := mk {
  name : string;
  txid : Z;
  IsTimedOut : llarp_time_t -> bool
}.

End IServiceLookup.

Definition PathEnsureHook : Type := Z.

(** An established path, named by its identifier. *)
Definition Path : Type := Z.

(** ** OutboundContext *)

Module OutboundContext.

(** Calls that leave the context: to the parent endpoint, to the path
    builder base class and to the DHT through a path. *)
Inductive Event : Type :=
  | EnsureRouterIsKnown (router : RouterID)
  | ManualRebuild (n : Z)
  | SendIntroSetLookup (remote : ServiceInfo.t) (via : Path).

(** The members that OnIntroSetUpdate, ShiftIntroduction and Tick read or
    write. *)
Record t : Type := mk {
  currentIntroSet : IntroSet.t;
  selectedIntro : Introduction.t
}.

Definition set_currentIntroSet (v : IntroSet.t) (c : t) : t := mk v (selectedIntro c).
Definition set_selectedIntro (v : Introduction.t) (c : t) : t := mk (currentIntroSet c) v.

(** [OnIntroSetUpdate(const IntroSet* i)]; a null pointer is [None]. *)
Definition OnIntroSetUpdate (i : option IntroSet.t) (c : t) : bool * t :=
  match i with
  | Some s =>
      if IntroSet.IsNewerThan s (currentIntroSet c)
      then (true, set_currentIntroSet s c)
      else (true, c)
  | None => (true, c)
  end.

(** The range-for of ShiftIntroduction over [currentIntroSet.I]. *)
Fixpoint ShiftIntroduction_loop (l : list Introduction.t) (sel : Introduction.t)
    (evs : list Event) : Introduction.t * list Event :=
  match l with
  | [] => (sel, evs)
  | intro :: rest =>
      let evs' := evs ++ [EnsureRouterIsKnown (Introduction.router sel)] in
      let sel' :=
        if Introduction.expiresAt sel <? Introduction.expiresAt intro then intro else sel in
      ShiftIntroduction_loop rest sel' evs'
  end.

Definition ShiftIntroduction (c : t) : t * list Event :=
  let '(sel, evs) :=
    ShiftIntroduction_loop (IntroSet.I (currentIntroSet c)) (selectedIntro c) [] in
  (set_selectedIntro sel c, evs ++ [ManualRebuild 2]).

(** The constructor [OutboundContext(intro, parent)]. *)
Definition new (intro : IntroSet.t) : t * list Event :=
  ShiftIntroduction (mk intro Introduction.Clear).

(** [UpdateIntroSet()]; [path] is what the parent's
    [GetEstablishedPathClosestTo] answers for the remote's address. *)
Definition UpdateIntroSet (path : option Path) (c : t) : list Event :=
  match path with
  | Some p => [SendIntroSetLookup (IntroSet.A (currentIntroSet c)) p]
  | None => []
  end.

(** The condition of the [if] in Tick, on [llarp_time_t] operands. *)
Definition Tick_refresh_due (now : llarp_time_t) (c : t) : bool :=
  (now <=? Introduction.expiresAt (selectedIntro c))
  || (U64.sub (Introduction.expiresAt (selectedIntro c)) now <? 30000).

Definition Tick (path : option Path) (now : llarp_time_t) (c : t) : bool * list Event :=
  let evs := if Tick_refresh_due now c then UpdateIntroSet path c else [] in
  (false, evs ++ [EnsureRouterIsKnown (Introduction.router (selectedIntro c))]).

(** The condition the spec gives for the same [if]: the selected
    introduction has expired or expires in less than 30 seconds. *)
Definition within_30s_of_expiry (now : llarp_time_t) (c : t) : bool :=
  (Introduction.expiresAt (selectedIntro c) <=? now)
  || (Introduction.expiresAt (selectedIntro c) - now <? 30000).

(** States reached from the constructor by OnIntroSetUpdate and
    ShiftIntroduction calls in any order. *)
Inductive reachable : t -> Prop :=
  | reach_new (s : IntroSet.t) : reachable (new s).1
  | reach_update (i : option IntroSet.t) (c : t) :
      reachable c -> reachable (OnIntroSetUpdate i c).2
  | reach_shift (c : t) : reachable c -> reachable (ShiftIntroduction c).1.

(** The states in which the code has aligned the selection with the
    current introset: the constructor ran on an introset with an
    introduction of non-zero expiry, or a ShiftIntroduction found a later
    expiring introduction; and from there on every ShiftIntroduction, every
    rejected OnIntroSetUpdate and every accepted one whose introset still
    lists the selected introduction. *)
Inductive aligned : t -> Prop :=
  | aligned_new (s : IntroSet.t) (i : Introduction.t) :
      i ∈ IntroSet.I s -> 0 < Introduction.expiresAt i -> aligned (new s).1
  | aligned_rejected (i : option IntroSet.t) (c : t) :
      aligned c ->
      (i = None \/ exists s, i = Some s /\ IntroSet.IsNewerThan s (currentIntroSet c) = false) ->
      aligned (OnIntroSetUpdate i c).2
  | aligned_accepted (s : IntroSet.t) (c : t) :
      aligned c -> selectedIntro c ∈ IntroSet.I s ->
      aligned (OnIntroSetUpdate (Some s) c).2
  | aligned_later (i : Introduction.t) (c : t) :
      reachable c -> i ∈ IntroSet.I (currentIntroSet c) ->
      Introduction.expiresAt (selectedIntro c) < Introduction.expiresAt i ->
      aligned (ShiftIntroduction c).1
  | aligned_shift (c : t) : aligned c -> aligned (ShiftIntroduction c).1.

End OutboundContext.

(** ** Endpoint *)

(** The two publish intervals are macros of endpoint.hpp, outside this
    file; they enter as parameters, already converted to [llarp_time_t]. *)
Class Intervals : Type := {
  INTROSET_PUBLISH_INTERVAL : llarp_time_t;
  INTROSET_PUBLISH_RETRY_INTERVAL : llarp_time_t
}.

Module Endpoint.

(** What the surroundings answer during one call. *)
Record Env : Type := {
  llarp_time_now_ms : llarp_time_t;
  llarp_randint : Z;
  (** [ServiceInfo::Addr], a hash of the public keys *)
  Addr : ServiceInfo.t -> Address;
  (** path builder base class; [Address::ToRouter] keeps the bytes *)
  GetEstablishedPathClosestTo : RouterID -> option Path;
  ShouldBuildMore : bool;
  (** the introductions of the established paths, in the order of the
      [std::set] that GetCurrentIntroductions fills *)
  established_intros : list Introduction.t;
  (** [path->SendRoutingMessage(&msg, r)] and
      [job->SendRequestViaPath(path, r)] *)
  SendRoutingMessage : Path -> bool
}.

Inductive Event : Type :=
  (** [lookup->HandleResponse(results)] of the pending lookup stored under
      [key] *)
  | HandleResponse (key : Z) (results : list IntroSet.t)
  (** [hook(ctx)] with the context of the remote session [remote] *)
  | HookCall (hook : PathEnsureHook) (remote : Address)
  | ManualRebuild (n : Z)
  | SendPublishIntro (introset : IntroSet.t) (tx : Z) (via : Path)
  (** a HiddenServiceAddressLookup built and sent; IServiceLookup's
      constructor and SendRequestViaPath are outside this file *)
  | SendAddressLookup (remote : Address) (tx : Z) (via : Path).

Record t : Type := mk {
  m_Identity_pub : ServiceInfo.t;
  m_IntroSet : IntroSet.t;
  m_Tag : Tag;
  m_CurrentPublishTX : Z;
  m_LastPublish : llarp_time_t;
  m_LastPublishAttempt : llarp_time_t;
  m_PendingLookups : gmap Z IServiceLookup.t;
  m_PendingServiceLookups : gmap Z PathEnsureHook;
  m_RemoteSessions : gmap Z OutboundContext.t;
  m_Sessions : gmap Z Session.t
}.

Definition set_IntroSet (v : IntroSet.t) (e : t) : t :=
  mk (m_Identity_pub e) v (m_Tag e) (m_CurrentPublishTX e) (m_LastPublish e)
     (m_LastPublishAttempt e) (m_PendingLookups e) (m_PendingServiceLookups e)
     (m_RemoteSessions e) (m_Sessions e).
Definition set_CurrentPublishTX (v : Z) (e : t) : t :=
  mk (m_Identity_pub e) (m_IntroSet e) (m_Tag e) v (m_LastPublish e)
     (m_LastPublishAttempt e) (m_PendingLookups e) (m_PendingServiceLookups e)
     (m_RemoteSessions e) (m_Sessions e).
Definition set_LastPublish (v : llarp_time_t) (e : t) : t :=
  mk (m_Identity_pub e) (m_IntroSet e) (m_Tag e) (m_CurrentPublishTX e) v
     (m_LastPublishAttempt e) (m_PendingLookups e) (m_PendingServiceLookups e)
     (m_RemoteSessions e) (m_Sessions e).
Definition set_LastPublishAttempt (v : llarp_time_t) (e : t) : t :=
  mk (m_Identity_pub e) (m_IntroSet e) (m_Tag e) (m_CurrentPublishTX e) (m_LastPublish e)
     v (m_PendingLookups e) (m_PendingServiceLookups e)
     (m_RemoteSessions e) (m_Sessions e).
Definition set_PendingLookups (v : gmap Z IServiceLookup.t) (e : t) : t :=
  mk (m_Identity_pub e) (m_IntroSet e) (m_Tag e) (m_CurrentPublishTX e) (m_LastPublish e)
     (m_LastPublishAttempt e) v (m_PendingServiceLookups e)
     (m_RemoteSessions e) (m_Sessions e).
Definition set_PendingServiceLookups (v : gmap Z PathEnsureHook) (e : t) : t :=
  mk (m_Identity_pub e) (m_IntroSet e) (m_Tag e) (m_CurrentPublishTX e) (m_LastPublish e)
     (m_LastPublishAttempt e) (m_PendingLookups e) v
     (m_RemoteSessions e) (m_Sessions e).
Definition set_Sessions (v : gmap Z Session.t) (e : t) : t :=
  mk (m_Identity_pub e) (m_IntroSet e) (m_Tag e) (m_CurrentPublishTX e) (m_LastPublish e)
     (m_LastPublishAttempt e) (m_PendingLookups e) (m_PendingServiceLookups e)
     (m_RemoteSessions e) v.

(** Control leaves a block either by a [return] of the function or at the
    block's end. *)
Inductive Flow (A B : Type) : Type :=
  | Return (a : A)
  | Continue (b : B).
Arguments Return {A B} a.
Arguments Continue {A B} b.

(** *** Session cache *)

(** [m_Sessions.find(tag)], inserting [Session{}] when there is none. *)
Definition find_or_insert_session (tag : ConvoTag) (e : t) : Session.t :=
  match m_Sessions e !! tag with
  | Some s => s
  | None => Session.empty
  end.

Definition PutSenderFor (env : Env) (tag : ConvoTag) (info : ServiceInfo.t) (e : t) : t :=
  let s := find_or_insert_session tag e in
  let s' := Session.set_lastUsed (llarp_time_now_ms env) (Session.set_remote info s) in
  set_Sessions (<[tag := s']> (m_Sessions e)) e.

Definition GetSenderFor (tag : ConvoTag) (e : t) : option ServiceInfo.t :=
  Session.remote <$> m_Sessions e !! tag.

Definition PutIntroFor (env : Env) (tag : ConvoTag) (intro : Introduction.t) (e : t) : t :=
  let s := find_or_insert_session tag e in
  let s' := Session.set_lastUsed (llarp_time_now_ms env) (Session.set_intro intro s) in
  set_Sessions (<[tag := s']> (m_Sessions e)) e.

Definition GetIntroFor (tag : ConvoTag) (e : t) : option Introduction.t :=
  Session.intro <$> m_Sessions e !! tag.

Definition PutCachedSessionKeyFor (env : Env) (tag : ConvoTag) (k : SharedSecret) (e : t) : t :=
  let s := find_or_insert_session tag e in
  let s' := Session.set_lastUsed (llarp_time_now_ms env) (Session.set_sharedKey k s) in
  set_Sessions (<[tag := s']> (m_Sessions e)) e.

Definition GetCachedSessionKeyFor (tag : ConvoTag) (e : t) : option SharedSecret :=
  Session.sharedKey <$> m_Sessions e !! tag.

(** [GetSeqNoForConvo]: the value returned and the endpoint afterwards. *)
Definition GetSeqNoForConvo (tag : ConvoTag) (e : t) : Z * t :=
  match m_Sessions e !! tag with
  | None => (0, e)
  | Some s =>
      let n := U64.succ (Session.seqno s) in
      (n, set_Sessions (<[tag := Session.set_seqno n s]> (m_Sessions e)) e)
  end.

(** The [while(itr != m_Sessions.end())] of GetConvoTagsForService. The
    iterator is the list of entries from its position to the end; the body
    never moves it. [fuel] bounds the iterations that are run: [None] means
    the loop is still running when the fuel is spent. *)
Fixpoint GetConvoTagsForService_loop (fuel : nat) (info : ServiceInfo.t)
    (itr : list (ConvoTag * Session.t)) (inserted : bool) (tags : gset Z)
    : option (bool * gset Z) :=
  match fuel with
  | O => None
  | S fuel' =>
      match itr with
      | [] => Some (inserted, tags)
      | (tag, s) :: _ =>
          if bool_decide (Session.remote s = info)
          then GetConvoTagsForService_loop fuel' info itr
                 (inserted || bool_decide (tag ∉ tags)) ({[tag]} ∪ tags)
          else GetConvoTagsForService_loop fuel' info itr inserted tags
      end
  end.

Definition GetConvoTagsForService (fuel : nat) (info : ServiceInfo.t) (tags : gset Z)
    (e : t) : option (bool * gset Z) :=
  GetConvoTagsForService_loop fuel info (map_to_list (m_Sessions e)) false tags.

(** *** Pending lookups *)

(** [PutLookup]: [unordered_map::insert] keeps an entry that is already
    stored under [txid]. *)
Definition PutLookup (lookup : IServiceLookup.t) (txid : Z) (e : t) : t :=
  match m_PendingLookups e !! txid with
  | Some _ => e
  | None => set_PendingLookups (<[txid := lookup]> (m_PendingLookups e)) e
  end.

(** The [while] of GenTXID. With fewer than 2^64 pending lookups it leaves
    after at most [size m_PendingLookups] increments, which is the fuel
    GenTXID gives it. *)
Fixpoint GenTXID_loop (fuel : nat) (txid : Z) (e : t) : Z :=
  match fuel with
  | O => txid
  | S fuel' =>
      match m_PendingLookups e !! txid with
      | Some _ => GenTXID_loop fuel' (U64.succ txid) e
      | None => txid
      end
  end.

Definition GenTXID (env : Env) (e : t) : Z :=
  GenTXID_loop (size (m_PendingLookups e)) (llarp_randint env) e.

Definition HasPendingPathToService (addr : Address) (e : t) : bool :=
  bool_decide (is_Some (m_PendingServiceLookups e !! addr)).

Definition HasPathToService (addr : Address) (e : t) : bool :=
  bool_decide (is_Some (m_RemoteSessions e !! addr)).

(** *** Publishing the introset *)

Definition IntroSetPublishFail (e : t) : t := set_CurrentPublishTX 0 e.

Definition IntroSetPublished (env : Env) (e : t) : t :=
  set_LastPublish (llarp_time_now_ms env) (set_CurrentPublishTX 0 e).

Section WithIntervals.
Context `{Intervals}.

Definition ShouldPublishDescriptors (now : llarp_time_t) (e : t) : bool :=
  if IntroSet.HasExpiredIntros now (m_IntroSet e)
  then (m_CurrentPublishTX e =? 0)
       && (INTROSET_PUBLISH_RETRY_INTERVAL <=? U64.sub now (m_LastPublishAttempt e))
  else (m_CurrentPublishTX e =? 0)
       && (INTROSET_PUBLISH_INTERVAL <=? U64.sub now (m_LastPublish e)).

End WithIntervals.

Definition PublishIntroSet (env : Env) (e : t) : bool * t * list Event :=
  match GetEstablishedPathClosestTo env (Addr env (m_Identity_pub e)) with
  | Some path =>
      let e1 := set_CurrentPublishTX (llarp_randint env) e in
      let ev := SendPublishIntro (m_IntroSet e1) (m_CurrentPublishTX e1) path in
      if SendRoutingMessage env path
      then (true, set_LastPublishAttempt (llarp_time_now_ms env) e1, [ev])
      else (false, e1, [ev])
  | None => (false, e, [])
  end.

(** Modelled from the spec: [GetCurrentIntroductions] belongs to the path
    set, outside this file; it yields the introductions of the established
    paths and "returns true iff out is non-empty". *)
Definition GetCurrentIntroductions (env : Env) : bool * list Introduction.t :=
  (negb (bool_decide (established_intros env = [])), established_intros env).

(** *** HandleGotIntroMessage *)

Module GotIntroMessage.

Record t : Type := mk { T : Z; I : list IntroSet.t }.

End GotIntroMessage.

(** [remote.insert(introset)] on the [std::set< IntroSet >] of results. *)
Definition remote_insert (introset : IntroSet.t) (remote : list IntroSet.t) : list IntroSet.t :=
  if bool_decide (introset ∈ remote) then remote else remote ++ [introset].

(** The range-for over [msg->I]: it either returns from the function or
    falls through with the verified foreign introsets. *)
Fixpoint HandleGotIntroMessage_loop (crypto : llarp_crypto) (env : Env) (T : Z)
    (l : list IntroSet.t) (remote : list IntroSet.t) (e : t)
    : Flow (bool * t) (list IntroSet.t) :=
  match l with
  | [] => Continue remote
  | introset :: rest =>
      let ours :=
        bool_decide (m_Identity_pub e = IntroSet.A introset) && (m_CurrentPublishTX e =? T) in
      if negb (VerifySignature crypto introset)
      then Return (false, if ours then IntroSetPublishFail e else e)
      else if ours
      then Return (true, IntroSetPublished env e)
      else HandleGotIntroMessage_loop crypto env T rest (remote_insert introset remote) e
  end.

Definition HandleGotIntroMessage (crypto : llarp_crypto) (env : Env)
    (msg : GotIntroMessage.t) (e : t) : bool * t * list Event :=
  match HandleGotIntroMessage_loop crypto env (GotIntroMessage.T msg)
          (GotIntroMessage.I msg) [] e with
  | Return (r, e') => (r, e', [])
  | Continue remote =>
      match m_PendingLookups e !! GotIntroMessage.T msg with
      | None => (true, e, [])
      | Some lookup =>
          (true,
           set_PendingLookups (delete (GotIntroMessage.T msg) (m_PendingLookups e)) e,
           [HandleResponse (GotIntroMessage.T msg) remote])
      end
  end.

(** *** Tick, up to the end of the "expire pending tx" block

    The blocks that follow in the source (pending router lookups, the two
    prefetch loops, the remote sessions) erase nothing from
    [m_PendingLookups] and call no handler of a stored lookup; they are
    not part of this definition. *)

Section WithIntervals.
Context `{Intervals}.

(** "reset tx id for publish" *)
Definition Tick_reset_publish_tx (now : llarp_time_t) (e : t) : t :=
  if INTROSET_PUBLISH_RETRY_INTERVAL <=? U64.sub now (m_LastPublishAttempt e)
  then set_CurrentPublishTX 0 e
  else e.

(** "publish descriptors": the block returns from Tick when no introduction
    could be gathered or the introset could not be signed. *)
Definition Tick_publish_descriptors (crypto : llarp_crypto) (env : Env)
    (now : llarp_time_t) (e : t) : Flow (t * list Event) (t * list Event) :=
  if ShouldPublishDescriptors now e then
    let '(ok, intros) := GetCurrentIntroductions env in
    if negb ok
    then Return (e, if ShouldBuildMore env then [ManualRebuild 1] else [])
    else
      let e1 :=
        set_IntroSet (IntroSet.set_topic (m_Tag e) (IntroSet.set_I intros (m_IntroSet e))) e in
      match SignIntroSet crypto (m_Identity_pub e1) (m_IntroSet e1) with
      | None => Return (e1, [])
      | Some signed =>
          let '(_, e2, evs) := PublishIntroSet env (set_IntroSet signed e1) in
          Continue (e2, evs)
      end
  else Continue (e, []).

(** "expire pending tx": the [while] over [m_PendingLookups]; [itr] lists
    the entries from the iterator to the end. *)
Fixpoint Tick_expire_loop (now : llarp_time_t) (itr : list (Z * IServiceLookup.t))
    (pending : gmap Z IServiceLookup.t) (evs : list Event)
    : gmap Z IServiceLookup.t * list Event :=
  match itr with
  | [] => (pending, evs)
  | (key, lookup) :: rest =>
      if IServiceLookup.IsTimedOut lookup now
      then Tick_expire_loop now rest (delete key pending) (evs ++ [HandleResponse key []])
      else Tick_expire_loop now rest pending evs
  end.

Definition Tick_expire_pending_tx (now : llarp_time_t) (e : t) : t * list Event :=
  let '(pending, evs) :=
    Tick_expire_loop now (map_to_list (m_PendingLookups e)) (m_PendingLookups e) [] in
  (set_PendingLookups pending e, evs).

Definition Tick (crypto : llarp_crypto) (env : Env) (now : llarp_time_t) (e : t)
    : t * list Event :=
  match Tick_publish_descriptors crypto env now (Tick_reset_publish_tx now e) with
  | Return r => r
  | Continue (e1, evs1) =>
      let '(e2, evs2) := Tick_expire_pending_tx now e1 in
      (e2, evs1 ++ evs2)
  end.

End WithIntervals.

(** The results that the handler of the lookup stored under [key] was
    called with, in call order. *)
Definition handler_calls (key : Z) (evs : list Event) : list (list IntroSet.t) :=
  omap (fun ev =>
          match ev with
          | HandleResponse k results => if bool_decide (k = key) then Some results else None
          | _ => None
          end) evs.

(** *** EnsurePathToService *)

Definition hooks_called (evs : list Event) : list PathEnsureHook :=
  omap (fun ev => match ev with HookCall h _ => Some h | _ => None end) evs.

Definition EnsurePathToService (env : Env) (remote : Address) (hook : PathEnsureHook)
    (timeoutMS : llarp_time_t) (e : t) : bool * t * list Event :=
  match GetEstablishedPathClosestTo env remote with
  | None => (false, e, [])
  | Some path =>
      match m_RemoteSessions e !! remote with
      | Some _ => (true, e, [HookCall hook remote])
      | None =>
          match m_PendingServiceLookups e !! remote with
          | Some _ => (false, e, [])
          | None =>
              let e1 :=
                set_PendingServiceLookups (<[remote := hook]> (m_PendingServiceLookups e)) e in
              let txid := GenTXID env e1 in
              (SendRoutingMessage env path, e1, [SendAddressLookup remote txid path])
          end
      end
  end.

End Endpoint.

(** [n] successive calls of GetSeqNoForConvo on one tag: the values they
    return, in call order, and the endpoint afterwards. *)
Fixpoint GetSeqNoForConvo_repeat (n : nat) (tag : ConvoTag) (e : Endpoint.t)
    : list Z * Endpoint.t :=
  match n with
  | O => ([], e)
  | S n' =>
      let '(r, e1) := Endpoint.GetSeqNoForConvo tag e in
      let '(rs, e2) := GetSeqNoForConvo_repeat n' tag e1 in
      (r :: rs, e2)
  end.

(** Whether the entry found under a key, if any, has timed out at [now]. *)
Definition expiry_of (now : llarp_time_t) (visited : option IServiceLookup.t) : bool :=
  match visited with
  | Some lookup => IServiceLookup.IsTimedOut lookup now
  | None => false
  end.

(** ** Concrete states used by the examples *)

Module Examples.

Definition intervals : Intervals :=
  {| INTROSET_PUBLISH_INTERVAL := 1800000; INTROSET_PUBLISH_RETRY_INTERVAL := 60000 |}.

Definition alice : ServiceInfo.t := ServiceInfo.mk 11 12.
Definition bob : ServiceInfo.t := ServiceInfo.mk 21 22.

Definition intro_a : Introduction.t := Introduction.mk 1 1 100000.
Definition intro_b : Introduction.t := Introduction.mk 2 2 50000.
Definition intro_old : Introduction.t := Introduction.mk 3 3 1000.

(** An introset of bob, signed at time [signedAt]. *)
Definition introset_of (who : ServiceInfo.t) (intros : list Introduction.t)
    (signedAt : llarp_time_t) (sig : Z) : IntroSet.t :=
  IntroSet.mk who intros 0 0 signedAt sig.

(** A context whose selected introduction expires 99 seconds after
    [now = 1000]. *)
Definition ctx_far : OutboundContext.t :=
  OutboundContext.mk (introset_of bob [intro_a] 10 1) intro_a.

(** A context whose selected introduction expired 1 second before
    [now = 2000], while its current introset holds no expired one. *)
Definition ctx_expired : OutboundContext.t :=
  OutboundContext.mk (introset_of bob [intro_a] 10 1) intro_old.

Definition empty_endpoint : Endpoint.t :=
  Endpoint.mk alice (introset_of alice [] 0 0) 0 0 0 0 ∅ ∅ ∅ ∅.

Definition session_with_seqno (n : Z) : Session.t :=
  Session.set_seqno n (Session.set_remote bob Session.empty).

Definition endpoint_with_seqno (n : Z) : Endpoint.t :=
  Endpoint.set_Sessions {[ 5 := session_with_seqno n ]} empty_endpoint.

Definition env0 : Endpoint.Env :=
  {| Endpoint.llarp_time_now_ms := 5000;
     Endpoint.llarp_randint := 77;
     Endpoint.Addr := fun si => ServiceInfo.signkey si;
     Endpoint.GetEstablishedPathClosestTo := fun _ => Some 9;
     Endpoint.ShouldBuildMore := true;
     Endpoint.established_intros := [];
     Endpoint.SendRoutingMessage := fun _ => true |}.

(** A crypto context that accepts exactly the introsets whose signature
    field is 1 and signs by setting it. *)
Definition crypto0 : llarp_crypto :=
  {| VerifySignature := fun s => IntroSet.signature s =? 1;
     SignIntroSet := fun _ s =>
       Some (IntroSet.mk (IntroSet.A s) (IntroSet.I s) (IntroSet.K s) (IntroSet.topic s)
               (IntroSet.lastSignedAt s) 1) |}.

Definition bob_forged : IntroSet.t := introset_of bob [intro_b] 5 0.
Definition bob_signed : IntroSet.t := introset_of bob [intro_b] 5 1.
Definition alice_signed : IntroSet.t := introset_of alice [intro_a] 5 1.
Definition alice_forged : IntroSet.t := introset_of alice [intro_a] 5 0.

(** alice's endpoint while its publish with txid 42 is in flight. *)
Definition publishing_endpoint : Endpoint.t :=
  Endpoint.set_LastPublishAttempt 4000 (Endpoint.set_CurrentPublishTX 42 empty_endpoint).

(** A pending lookup that has timed out at every time, and one that never
    does. *)
Definition lookup_late : IServiceLookup.t := IServiceLookup.mk "HSLookup" 3 (fun _ => true).
Definition lookup_fresh : IServiceLookup.t := IServiceLookup.mk "HSLookup" 4 (fun _ => false).

Definition endpoint_with_lookups : Endpoint.t :=
  Endpoint.PutLookup lookup_fresh 4 (Endpoint.PutLookup lookup_late 3 empty_endpoint).

(** The same endpoint with a publish in flight since time 1990000, so that
    no publish is due at time 2000000. *)
Definition endpoint_with_lookups_publishing : Endpoint.t :=
  Endpoint.set_LastPublishAttempt 1990000
    (Endpoint.set_LastPublish 1990000 endpoint_with_lookups).

(** An endpoint with a lookup of address 8 pending under hook 1. *)
Definition endpoint_pending_8 : Endpoint.t :=
  Endpoint.set_PendingServiceLookups {[ 8 := 1 ]} empty_endpoint.

(** bob's introset with the single introduction [intro_a], and a later
    signed one with the single, earlier expiring introduction [intro_b]. *)
Definition bob_first : IntroSet.t := introset_of bob [intro_a] 10 1.
Definition bob_second : IntroSet.t := introset_of bob [intro_b] 20 1.

(** Constructed from [bob_first], updated with [bob_second], then shifted. *)
Definition ctx_updated : OutboundContext.t :=
  (OutboundContext.ShiftIntroduction
     (OutboundContext.OnIntroSetUpdate (Some bob_second)
        (OutboundContext.new bob_first).1).2).1.

End Examples.

(** ** Outbound lookups: from the response to the remote session *)

Module Outbound.

(** Calls of the endpoint itself, and calls made by the outbound context
    that the endpoint stores under [addr]. *)
Inductive Event : Type :=
  | OfEndpoint (ev : Endpoint.Event)
  | OfContext (addr : Address) (ev : OutboundContext.Event).

Definition set_RemoteSessions (v : gmap Z OutboundContext.t) (e : Endpoint.t) : Endpoint.t :=
  Endpoint.mk (Endpoint.m_Identity_pub e) (Endpoint.m_IntroSet e) (Endpoint.m_Tag e)
    (Endpoint.m_CurrentPublishTX e) (Endpoint.m_LastPublish e)
    (Endpoint.m_LastPublishAttempt e) (Endpoint.m_PendingLookups e)
    (Endpoint.m_PendingServiceLookups e) v (Endpoint.m_Sessions e).

(** The hooks called, with the remote whose context each one received. *)
Definition hook_calls (evs : list Event) : list (PathEnsureHook * Address) :=
  omap (fun ev =>
          match ev with
          | OfEndpoint (Endpoint.HookCall h remote) => Some (h, remote)
          | _ => None
          end) evs.

(** [PutNewOutboundContext]; [CalculateAddress] and [Addr] are the same
    hash of the public keys. *)
Definition PutNewOutboundContext (env : Endpoint.Env) (introset : IntroSet.t)
    (e : Endpoint.t) : Endpoint.t * list Event :=
  let addr := Endpoint.Addr env (IntroSet.A introset) in
  let '(e1, evs1) :=
    match Endpoint.m_RemoteSessions e !! addr with
    | None =>
        let '(ctx, cevs) := OutboundContext.new introset in
        (set_RemoteSessions (<[addr := ctx]> (Endpoint.m_RemoteSessions e)) e,
         OfContext addr <$> cevs)
    | Some _ => (e, [])
    end in
  match Endpoint.m_PendingServiceLookups e1 !! addr with
  | Some f =>
      (Endpoint.set_PendingServiceLookups (delete addr (Endpoint.m_PendingServiceLookups e1)) e1,
       evs1 ++ [OfEndpoint (Endpoint.HookCall f addr)])
  | None => (e1, evs1)
  end.

(** [OnOutboundLookup(const IntroSet* introset)]. *)
Definition OnOutboundLookup (env : Endpoint.Env) (introset : option IntroSet.t)
    (e : Endpoint.t) : bool * (Endpoint.t * list Event) :=
  match introset with
  | None => (false, (e, []))
  | Some s => (true, PutNewOutboundContext env s e)
  end.

(** What [HiddenServiceAddressLookup::HandleResponse] passes to its
    [handle]: the one result, or a null pointer. *)
Definition found (results : list IntroSet.t) : option IntroSet.t :=
  match results with
  | [r] => Some r
  | _ => None
  end.

(** [HiddenServiceAddressLookup::HandleResponse] of the lookup that
    EnsurePathToService builds, whose [handle] is OnOutboundLookup. *)
Definition HandleResponse (env : Endpoint.Env) (results : list IntroSet.t)
    (e : Endpoint.t) : bool * (Endpoint.t * list Event) :=
  (false, (OnOutboundLookup env (found results) e).2).

(** [OutboundContext::Send]. [now] is the clock it reads, [closest] the
    parent's path closest to the remote, [GetPathByRouter] the lookup in the
    context's own path set. *)
Inductive SendEvent : Type :=
  | Call (ev : OutboundContext.Event)
  | Transfer (pathID : PathID_t) (via : Path).

Definition Send_shift_due (now : llarp_time_t) (c : OutboundContext.t) : bool :=
  (Introduction.expiresAt (OutboundContext.selectedIntro c) <=? now)
  || (1000 <? U64.sub now (Introduction.expiresAt (OutboundContext.selectedIntro c))).

Definition Send (now : llarp_time_t) (closest : option Path)
    (GetPathByRouter : RouterID -> option Path) (c : OutboundContext.t)
    : OutboundContext.t * list SendEvent :=
  let evs1 :=
    if IntroSet.HasExpiredIntros now (OutboundContext.currentIntroSet c)
    then OutboundContext.UpdateIntroSet closest c else [] in
  let '(c1, evs2) :=
    if Send_shift_due now c then OutboundContext.ShiftIntroduction c else (c, []) in
  let sel := OutboundContext.selectedIntro c1 in
  match GetPathByRouter (Introduction.router sel) with
  | Some path => (c1, (Call <$> (evs1 ++ evs2)) ++ [Transfer (Introduction.pathID sel) path])
  | None => (c1, Call <$> (evs1 ++ evs2))
  end.

End Outbound.

(** ** AsyncIntroGen::Result *)

Module AsyncIntroGen.

(** [Result]: the three Put calls on the data handler, here the endpoint
    itself ([m_DataHandler = this], as Start sets it), each reading the
    clock on its own. The call [hook(frame)] that follows does not touch
    the session cache and is not part of the result. *)
Definition Result (env1 env2 env3 : Endpoint.Env) (tag : ConvoTag) (sharedKey : SharedSecret)
    (introReply : Introduction.t) (remote : ServiceInfo.t) (e : Endpoint.t) : Endpoint.t :=
  Endpoint.PutSenderFor env3 tag remote
    (Endpoint.PutIntroFor env2 tag introReply
       (Endpoint.PutCachedSessionKeyFor env1 tag sharedKey e)).

End AsyncIntroGen.

(** ** CachedTagResult *)

Module CachedTagResult.

(** [result] is a [std::set< IntroSet >]: a list without two elements
    that the set's order, declared outside this file, holds equivalent;
    [same] is that equivalence. *)
Record t : Type := mk {
  tag : Tag;
  result : list IntroSet.t;
  lastModified : llarp_time_t;
  lastRequest : llarp_time_t
}.

Section WithOrder.
Variable same : IntroSet.t -> IntroSet.t -> bool.

(** The range-for of HandleResponse: [result.insert(introset).second] is
    true when no equivalent element is stored. *)
Fixpoint HandleResponse_loop (now : llarp_time_t) (introsets : list IntroSet.t)
    (c : t) : t :=
  match introsets with
  | [] => c
  | introset :: rest =>
      if existsb (same introset) (result c)
      then HandleResponse_loop now rest c
      else HandleResponse_loop now rest
             (mk (tag c) (result c ++ [introset]) now (lastRequest c))
  end.

Definition HandleResponse (env : Endpoint.Env) (introsets : list IntroSet.t) (c : t)
    : bool * t :=
  (true, HandleResponse_loop (Endpoint.llarp_time_now_ms env) introsets c).

End WithOrder.

(** The [while] of Expire; [itr] lists the elements from the iterator to
    the end, [kept] those it has passed. *)
Fixpoint Expire_loop (now : llarp_time_t) (itr kept : list IntroSet.t)
    (lastModified : llarp_time_t) : list IntroSet.t * llarp_time_t :=
  match itr with
  | [] => (kept, lastModified)
  | introset :: rest =>
      if IntroSet.HasExpiredIntros now introset
      then Expire_loop now rest kept now
      else Expire_loop now rest (kept ++ [introset]) lastModified
  end.

Definition Expire (now : llarp_time_t) (c : t) : t :=
  let '(kept, modified) := Expire_loop now (result c) [] (lastModified c) in
  mk (tag c) kept modified (lastRequest c).

End CachedTagResult.

(** ** Pending router lookups *)

Module Routers.

(** A [RouterLookupJob], with its expiry test as a member. *)
Record RouterLookupJob : Type := { IsExpired : llarp_time_t -> bool }.

Inductive Event : Type :=
  | SendFindRouter (router : RouterID) (txid : Z) (via : Path).

(** [EnsureRouterIsKnown]. [m_PendingRouters] is kept beside the endpoint
    record; [nodedb] tells whether [llarp_nodedb_get_rc] finds the router,
    [job] is the [RouterLookupJob(this)] that would be stored. *)
Definition EnsureRouterIsKnown (env : Endpoint.Env) (nodedb : RouterID -> bool)
    (job : RouterLookupJob) (router : RouterID) (e : Endpoint.t)
    (m_PendingRouters : gmap Z RouterLookupJob)
    : gmap Z RouterLookupJob * list Event :=
  if router =? 0 then (m_PendingRouters, [])
  else if nodedb router then (m_PendingRouters, [])
  else
    match m_PendingRouters !! router with
    | Some _ => (m_PendingRouters, [])
    | None =>
        let txid := Endpoint.GenTXID env e in
        match Endpoint.GetEstablishedPathClosestTo env router with
        | Some path =>
            if Endpoint.SendRoutingMessage env path
            then (<[router := job]> m_PendingRouters, [SendFindRouter router txid path])
            else (m_PendingRouters, [SendFindRouter router txid path])
        | None => (m_PendingRouters, [])
        end
    end.

(** "expire pending router lookups" of Tick. *)
Fixpoint Tick_expire_routers_loop (now : llarp_time_t) (itr : list (Z * RouterLookupJob))
    (pending : gmap Z RouterLookupJob) : gmap Z RouterLookupJob :=
  match itr with
  | [] => pending
  | (router, job) :: rest =>
      if IsExpired job now
      then Tick_expire_routers_loop now rest (delete router pending)
      else Tick_expire_routers_loop now rest pending
  end.

Definition Tick_expire_routers (now : llarp_time_t) (pending : gmap Z RouterLookupJob)
    : gmap Z RouterLookupJob :=
  Tick_expire_routers_loop now (map_to_list pending) pending.

End Routers.

(** The PublishIntroMessages handed to a path, in call order: introset,
    txid and path of each. *)
Definition publish_calls (evs : list Endpoint.Event) : list (IntroSet.t * Z * Path) :=
  omap (fun ev =>
          match ev with
          | Endpoint.SendPublishIntro introset tx via => Some (introset, tx, via)
          | _ => None
          end) evs.

(** ** Further concrete states *)

Module Scenarios.

(** The random generator answers 2^64 - 1. *)
Definition env_top : Endpoint.Env :=
  {| Endpoint.llarp_time_now_ms := 5000;
     Endpoint.llarp_randint := U64.max;
     Endpoint.Addr := fun si => ServiceInfo.signkey si;
     Endpoint.GetEstablishedPathClosestTo := fun _ => Some 9;
     Endpoint.ShouldBuildMore := true;
     Endpoint.established_intros := [];
     Endpoint.SendRoutingMessage := fun _ => true |}.

(** Lookups pending under 2^64 - 1 and under 0. *)
Definition endpoint_top : Endpoint.t :=
  Endpoint.PutLookup Examples.lookup_fresh 0
    (Endpoint.PutLookup Examples.lookup_late U64.max Examples.empty_endpoint).

(** One established path, with the introduction [intro_a]; no send fails. *)
Definition env_path : Endpoint.Env :=
  {| Endpoint.llarp_time_now_ms := 2000500;
     Endpoint.llarp_randint := 42;
     Endpoint.Addr := fun si => ServiceInfo.signkey si;
     Endpoint.GetEstablishedPathClosestTo := fun _ => Some 9;
     Endpoint.ShouldBuildMore := false;
     Endpoint.established_intros := [Examples.intro_a];
     Endpoint.SendRoutingMessage := fun _ => true |}.

(** No established path at all. *)
Definition env_no_path : Endpoint.Env :=
  {| Endpoint.llarp_time_now_ms := 6000;
     Endpoint.llarp_randint := 43;
     Endpoint.Addr := fun si => ServiceInfo.signkey si;
     Endpoint.GetEstablishedPathClosestTo := fun _ => None;
     Endpoint.ShouldBuildMore := true;
     Endpoint.established_intros := [];
     Endpoint.SendRoutingMessage := fun _ => false |}.

(** bob's address under [Addr] of the environments above. *)
Definition bob_addr : Address := 22.

(** alice's introset as Tick signs it from [env_path]. *)
Definition alice_published : IntroSet.t :=
  Examples.introset_of Examples.alice [Examples.intro_a] 0 1.

Definition tag_results : CachedTagResult.t :=
  CachedTagResult.mk 7
    [Examples.introset_of Examples.bob [Examples.intro_old] 1 1;
     Examples.introset_of Examples.alice [Examples.intro_a] 1 1] 100 50.

(** The set order that compares introsets by their owner only. *)
Definition same_owner (a b : IntroSet.t) : bool :=
  bool_decide (IntroSet.A a = IntroSet.A b).

Definition job_short : Routers.RouterLookupJob :=
  {| Routers.IsExpired := fun now => 10000 <? now |}.

End Scenarios.

(** * Properties *)

(** ** 64-bit arithmetic *)

Lemma U64_sub_no_wrap (a b : Z) :
  U64.in_range a -> U64.in_range b -> b <= a -> U64.sub a b = a - b.
Proof.
  unfold U64.in_range, U64.sub, U64.wrap, U64.modulus. intros Ha Hb Hle.
  apply Z.mod_small. lia.
Qed.

Lemma U64_sub_wrap (a b : Z) :
  U64.in_range a -> U64.in_range b -> a < b -> U64.sub a b = a - b + U64.modulus.
Proof.
  unfold U64.in_range, U64.sub, U64.wrap, U64.modulus. intros Ha Hb Hlt.
  symmetry. apply Z.mod_unique_pos with (q := -1); lia.
Qed.

Lemma U64_succ_small (a : Z) : 0 <= a < U64.max -> U64.succ a = a + 1.
Proof.
  unfold U64.succ, U64.wrap, U64.max, U64.modulus. intros Ha.
  apply Z.mod_small. lia.
Qed.

Lemma U64_succ_max : U64.succ U64.max = 0.
Proof. reflexivity. Qed.

Lemma U64_succ_zero_iff (a : Z) : U64.in_range a -> U64.succ a = 0 <-> a = U64.max.
Proof.
  intros Ha. split.
  - intros Hz. destruct (decide (a = U64.max)) as [|Hne]; [done|].
    rewrite U64_succ_small in Hz; unfold U64.in_range, U64.max in *; lia.
  - intros ->. apply U64_succ_max.
Qed.

(** ** OutboundContext::Tick *)

Lemma Tick_refresh_due_iff (now : llarp_time_t) (c : OutboundContext.t) :
  OutboundContext.Tick_refresh_due now c = true <->
  now <= Introduction.expiresAt (OutboundContext.selectedIntro c)
  \/ U64.sub (Introduction.expiresAt (OutboundContext.selectedIntro c)) now < 30000.
Proof.
  unfold OutboundContext.Tick_refresh_due.
  rewrite orb_true_iff, Z.leb_le, Z.ltb_lt. tauto.
Qed.

(** Whenever the selected introduction has not expired yet, Tick asks for a
    refresh, however far the expiry is. *)
Lemma Tick_refreshes_every_unexpired (path : Path) (now : llarp_time_t)
    (c : OutboundContext.t) :
  now <= Introduction.expiresAt (OutboundContext.selectedIntro c) ->
  (OutboundContext.Tick (Some path) now c).2 =
    [OutboundContext.SendIntroSetLookup
       (IntroSet.A (OutboundContext.currentIntroSet c)) path;
     OutboundContext.EnsureRouterIsKnown
       (Introduction.router (OutboundContext.selectedIntro c))].
Proof.
  intros Hle. unfold OutboundContext.Tick.
  assert (OutboundContext.Tick_refresh_due now c = true) as ->
    by (apply Tick_refresh_due_iff; auto).
  reflexivity.
Qed.

(** C1 (the code departs from it). At [now = 1000] the context [ctx_far]
    has no expired introduction and its selected introduction expires 99
    seconds later, outside the 30 second window, yet Tick sends the
    UpdateIntroSet lookup; at [now = 2000] the selected introduction of
    [ctx_expired] has expired one second ago and Tick sends none. *)
Theorem Tick_refresh_window_inverted :
  (IntroSet.HasExpiredIntros 1000 (OutboundContext.currentIntroSet Examples.ctx_far) = false
   /\ OutboundContext.within_30s_of_expiry 1000 Examples.ctx_far = false
   /\ OutboundContext.Tick (Some 9) 1000 Examples.ctx_far =
        (false, [OutboundContext.SendIntroSetLookup Examples.bob 9;
                 OutboundContext.EnsureRouterIsKnown 1]))
  /\
  (IntroSet.HasExpiredIntros 2000 (OutboundContext.currentIntroSet Examples.ctx_expired) = false
   /\ OutboundContext.within_30s_of_expiry 2000 Examples.ctx_expired = true
   /\ OutboundContext.Tick (Some 9) 2000 Examples.ctx_expired =
        (false, [OutboundContext.EnsureRouterIsKnown 3])).
Proof. repeat split; vm_compute; reflexivity. Qed.

(** ** GetConvoTagsForService *)

Lemma GetConvoTagsForService_loop_stuck (fuel : nat) (info : ServiceInfo.t)
    (p : ConvoTag * Session.t) (rest : list (ConvoTag * Session.t))
    (inserted : bool) (tags : gset Z) :
  Endpoint.GetConvoTagsForService_loop fuel info (p :: rest) inserted tags = None.
Proof.
  revert inserted tags. induction fuel as [|fuel IH]; intros inserted tags.
  - reflexivity.
  - destruct p as [tag s]. simpl. case_bool_decide; apply IH.
Qed.

(** On an empty session cache the loop is left at once. *)
Lemma GetConvoTagsForService_empty (fuel : nat) (info : ServiceInfo.t)
    (tags : gset Z) (e : Endpoint.t) :
  Endpoint.m_Sessions e = ∅ ->
  Endpoint.GetConvoTagsForService (S fuel) info tags e = Some (false, tags).
Proof.
  intros He. unfold Endpoint.GetConvoTagsForService.
  rewrite He, map_to_list_empty. reflexivity.
Qed.

(** C2 (the code departs from it). With at least one session in the cache
    (here: whatever the cache held, plus an entry under [tag]) the loop of
    GetConvoTagsForService is still running after any number of iterations:
    the call does not return, whatever the ServiceInfo asked for. *)
Theorem GetConvoTagsForService_never_returns (fuel : nat) (info : ServiceInfo.t)
    (tags : gset Z) (tag : ConvoTag) (s : Session.t) (e : Endpoint.t) :
  Endpoint.GetConvoTagsForService fuel info tags
    (Endpoint.set_Sessions (<[tag := s]> (Endpoint.m_Sessions e)) e) = None.
Proof.
  unfold Endpoint.GetConvoTagsForService. simpl.
  destruct (map_to_list (<[tag := s]> (Endpoint.m_Sessions e))) as [|p rest] eqn:Hl.
  - apply map_to_list_empty_iff in Hl. by apply insert_non_empty in Hl.
  - apply GetConvoTagsForService_loop_stuck.
Qed.

(** ** ShouldPublishDescriptors *)

Lemma HasExpiredIntros_iff (now : llarp_time_t) (s : IntroSet.t) :
  IntroSet.HasExpiredIntros now s = true <->
  exists i, i ∈ IntroSet.I s /\ Introduction.expiresAt i <= now.
Proof.
  unfold IntroSet.HasExpiredIntros. rewrite existsb_exists. split.
  - intros (i & Hin & Hexp). exists i. split; [by apply list_elem_of_In|].
    by apply Z.leb_le.
  - intros (i & Hin & Hexp). exists i. split; [by apply list_elem_of_In|].
    by apply Z.leb_le.
Qed.

(** C3. ShouldPublishDescriptors(now) is true exactly when no publish is in
    flight and the interval of the applicable branch has passed: the retry
    interval since the last attempt when the current introset has an
    expired introduction, the publish interval since the last publish
    otherwise; it is false while m_CurrentPublishTX is not 0. The
    differences are the [llarp_time_t] subtractions of the source. *)
Theorem ShouldPublishDescriptors_iff `{Intervals} (now : llarp_time_t) (e : Endpoint.t) :
  ((exists i, i ∈ IntroSet.I (Endpoint.m_IntroSet e) /\ Introduction.expiresAt i <= now) ->
     (Endpoint.ShouldPublishDescriptors now e = true <->
      Endpoint.m_CurrentPublishTX e = 0
      /\ INTROSET_PUBLISH_RETRY_INTERVAL <= U64.sub now (Endpoint.m_LastPublishAttempt e)))
  /\
  (~ (exists i, i ∈ IntroSet.I (Endpoint.m_IntroSet e) /\ Introduction.expiresAt i <= now) ->
     (Endpoint.ShouldPublishDescriptors now e = true <->
      Endpoint.m_CurrentPublishTX e = 0
      /\ INTROSET_PUBLISH_INTERVAL <= U64.sub now (Endpoint.m_LastPublish e)))
  /\
  (Endpoint.m_CurrentPublishTX e <> 0 -> Endpoint.ShouldPublishDescriptors now e = false).
Proof.
  unfold Endpoint.ShouldPublishDescriptors.
  pose proof (HasExpiredIntros_iff now (Endpoint.m_IntroSet e)) as Hexp.
  destruct (IntroSet.HasExpiredIntros now (Endpoint.m_IntroSet e)) eqn:Hhas.
  - split; [|split].
    + intros _. rewrite andb_true_iff, Z.eqb_eq, Z.leb_le. tauto.
    + intros Hno. exfalso. apply Hno. by apply Hexp.
    + intros Hne. apply andb_false_iff. left. by apply Z.eqb_neq.
  - split; [|split].
    + intros Hsome. apply Hexp in Hsome. discriminate.
    + intros _. rewrite andb_true_iff, Z.eqb_eq, Z.leb_le. tauto.
    + intros Hne. apply andb_false_iff. left. by apply Z.eqb_neq.
Qed.

(** With a clock that has not gone backwards the two differences are the
    plain ones. *)
Lemma ShouldPublishDescriptors_elapsed `{Intervals} (now : llarp_time_t) (e : Endpoint.t) :
  U64.in_range now ->
  U64.in_range (Endpoint.m_LastPublish e) -> Endpoint.m_LastPublish e <= now ->
  IntroSet.HasExpiredIntros now (Endpoint.m_IntroSet e) = false ->
  Endpoint.ShouldPublishDescriptors now e = true <->
  Endpoint.m_CurrentPublishTX e = 0
  /\ INTROSET_PUBLISH_INTERVAL <= now - Endpoint.m_LastPublish e.
Proof.
  intros Hnow Hlast Hle Hno. unfold Endpoint.ShouldPublishDescriptors.
  rewrite Hno, U64_sub_no_wrap by done.
  rewrite andb_true_iff, Z.eqb_eq, Z.leb_le. tauto.
Qed.

(** ** OnIntroSetUpdate *)

Lemma OnIntroSetUpdate_cases (i : option IntroSet.t) (c : OutboundContext.t) :
  (OutboundContext.OnIntroSetUpdate i c).2 =
    match i with
    | Some s =>
        if decide (IntroSet.lastSignedAt (OutboundContext.currentIntroSet c)
                   < IntroSet.lastSignedAt s)
        then OutboundContext.set_currentIntroSet s c
        else c
    | None => c
    end.
Proof.
  destruct i as [s|]; [|reflexivity].
  unfold OutboundContext.OnIntroSetUpdate, IntroSet.IsNewerThan.
  case_decide as Hlt.
  - apply Z.ltb_lt in Hlt. by rewrite Hlt.
  - apply Z.ltb_nlt in Hlt. by rewrite Hlt.
Qed.

Lemma OnIntroSetUpdate_signedAt_le (i : option IntroSet.t) (c : OutboundContext.t) :
  IntroSet.lastSignedAt (OutboundContext.currentIntroSet c) <=
  IntroSet.lastSignedAt
    (OutboundContext.currentIntroSet (OutboundContext.OnIntroSetUpdate i c).2).
Proof.
  rewrite OnIntroSetUpdate_cases. destruct i as [s|]; [|lia].
  case_decide; simpl; lia.
Qed.

(** C5. OnIntroSetUpdate(i) leaves the context as it is when [i] is null or
    not signed strictly later than the current introset, and makes [*i] the
    current introset when it is; so the last-signed timestamp of the
    current introset does not decrease, over one call and over any
    sequence of calls. *)
Theorem OnIntroSetUpdate_monotone (c : OutboundContext.t) :
  (OutboundContext.OnIntroSetUpdate None c).2 = c
  /\ (forall s : IntroSet.t,
        ~ IntroSet.lastSignedAt (OutboundContext.currentIntroSet c) < IntroSet.lastSignedAt s ->
        (OutboundContext.OnIntroSetUpdate (Some s) c).2 = c)
  /\ (forall s : IntroSet.t,
        IntroSet.lastSignedAt (OutboundContext.currentIntroSet c) < IntroSet.lastSignedAt s ->
        OutboundContext.currentIntroSet (OutboundContext.OnIntroSetUpdate (Some s) c).2 = s)
  /\ (forall updates : list (option IntroSet.t),
        IntroSet.lastSignedAt (OutboundContext.currentIntroSet c) <=
        IntroSet.lastSignedAt
          (OutboundContext.currentIntroSet
             (foldl (fun c' i => (OutboundContext.OnIntroSetUpdate i c').2) c updates))).
Proof.
  split; [reflexivity|]. split; [|split].
  - intros s Hnot. rewrite OnIntroSetUpdate_cases. by case_decide.
  - intros s Hlt. rewrite OnIntroSetUpdate_cases. by case_decide.
  - intros updates. revert c. induction updates as [|i updates IH]; intros c.
    + simpl. lia.
    + simpl. etrans; [apply (OnIntroSetUpdate_signedAt_le i c)|apply IH].
Qed.

(** ** GenTXID *)

Lemma GenTXID_loop_visits (fuel : nat) (t : Z) (e : Endpoint.t) :
  U64.in_range t ->
  exists k : nat, (k <= fuel)%nat
    /\ Endpoint.GenTXID_loop fuel t e = U64.wrap (t + Z.of_nat k)
    /\ (forall j : nat, (j < k)%nat ->
          is_Some (Endpoint.m_PendingLookups e !! U64.wrap (t + Z.of_nat j)))
    /\ ((k < fuel)%nat -> Endpoint.m_PendingLookups e !! U64.wrap (t + Z.of_nat k) = None).
Proof.
  unfold U64.in_range. revert t. induction fuel as [|fuel IH]; intros t Ht.
  - exists 0%nat. simpl. rewrite Z.add_0_r. unfold U64.wrap. rewrite Z.mod_small by done.
    repeat split; [lia | intros; lia | intros; lia].
  - simpl. destruct (Endpoint.m_PendingLookups e !! t) as [v|] eqn:Hm.
    + destruct (IH (U64.succ t)) as (k & Hk & Hres & Hseen & Hfree).
      { unfold U64.succ, U64.wrap, U64.modulus. apply Z.mod_pos_bound. lia. }
      assert (forall j : nat,
                U64.wrap (U64.succ t + Z.of_nat j) = U64.wrap (t + Z.of_nat (S j)))
        as Hshift.
      { intros j. unfold U64.succ, U64.wrap. rewrite Zplus_mod_idemp_l. f_equal. lia. }
      exists (S k). split; [lia|]. split; [by rewrite Hres, Hshift|]. split.
      * intros [|j] Hj.
        -- simpl. rewrite Z.add_0_r. unfold U64.wrap. rewrite Z.mod_small by done.
           by rewrite Hm.
        -- rewrite <- Hshift. apply Hseen. lia.
      * intros Hlt. rewrite <- Hshift. apply Hfree. lia.
    + exists 0%nat. simpl. rewrite Z.add_0_r. unfold U64.wrap. rewrite Z.mod_small by done.
      repeat split; [lia | intros; lia | done].
Qed.

Lemma U64_offsets_NoDup (t : Z) (n : nat) :
  Z.of_nat n <= U64.modulus ->
  NoDup ((fun j : nat => U64.wrap (t + Z.of_nat j)) <$> seq 0 n).
Proof.
  intros Hn. apply NoDup_fmap_2_strong; [|apply NoDup_seq].
  intros i j Hi%elem_of_seq Hj%elem_of_seq Heq.
  unfold U64.wrap, U64.modulus in *.
  assert (Z.of_nat i = Z.of_nat j) by (Z.div_mod_to_equations; lia). lia.
Qed.

(** GenTXID returns a txid that no pending lookup is stored under: the
    loop needs no more increments than there are pending lookups. *)
Lemma GenTXID_fresh (env : Endpoint.Env) (e : Endpoint.t) :
  U64.in_range (Endpoint.llarp_randint env) ->
  Z.of_nat (size (Endpoint.m_PendingLookups e)) < U64.modulus ->
  Endpoint.m_PendingLookups e !! Endpoint.GenTXID env e = None.
Proof.
  intros Ht Hsize. unfold Endpoint.GenTXID.
  set (m := Endpoint.m_PendingLookups e) in *.
  set (t := Endpoint.llarp_randint env) in *.
  destruct (GenTXID_loop_visits (size m) t e Ht) as (k & Hk & -> & Hseen & Hfree).
  fold m in Hseen, Hfree.
  destruct (decide (k < size m)%nat) as [Hlt | Hge]; [by apply Hfree|].
  assert (k = size m) as -> by lia.
  destruct (m !! U64.wrap (t + Z.of_nat (size m))) as [v|] eqn:Hlast; [|done].
  exfalso.
  set (l := (fun j : nat => U64.wrap (t + Z.of_nat j)) <$> seq 0 (S (size m))).
  assert (NoDup l) as Hnd by (apply U64_offsets_NoDup; lia).
  assert (list_to_set l ⊆ dom m) as Hsub.
  { intros x Hx. apply elem_of_list_to_set in Hx. unfold l in Hx.
    apply list_elem_of_fmap in Hx as (j & -> & Hj%elem_of_seq).
    apply elem_of_dom. destruct (decide (j = size m)) as [->|Hne].
    - by rewrite Hlast.
    - apply Hseen. lia. }
  apply subseteq_size in Hsub.
  rewrite size_list_to_set, size_dom in Hsub by done.
  unfold l in Hsub. rewrite length_fmap, length_seq in Hsub. lia.
Qed.

(** ** HandleGotIntroMessage *)

Lemma HandleGotIntroMessage_loop_skip (crypto : llarp_crypto) (env : Endpoint.Env)
    (T : Z) (pre l : list IntroSet.t) (remote : list IntroSet.t) (e : Endpoint.t) :
  Endpoint.m_CurrentPublishTX e = T ->
  Forall (fun s => VerifySignature crypto s = true
                   /\ IntroSet.A s <> Endpoint.m_Identity_pub e) pre ->
  exists remote',
    Endpoint.HandleGotIntroMessage_loop crypto env T (pre ++ l) remote e =
    Endpoint.HandleGotIntroMessage_loop crypto env T l remote' e.
Proof.
  intros HT Hpre. revert remote.
  induction Hpre as [|s pre [Hsig Hother] _ IH]; intros remote.
  - by exists remote.
  - simpl. rewrite Hsig. simpl.
    rewrite bool_decide_eq_false_2 by congruence. simpl. apply IH.
Qed.

Lemma HandleGotIntroMessage_loop_ours (crypto : llarp_crypto) (env : Endpoint.Env)
    (T : Z) (x : IntroSet.t) (post remote : list IntroSet.t) (e : Endpoint.t) :
  Endpoint.m_CurrentPublishTX e = T ->
  IntroSet.A x = Endpoint.m_Identity_pub e ->
  Endpoint.HandleGotIntroMessage_loop crypto env T (x :: post) remote e =
    if VerifySignature crypto x
    then Endpoint.Return (true, Endpoint.IntroSetPublished env e)
    else Endpoint.Return (false, Endpoint.IntroSetPublishFail e).
Proof.
  intros HT HA. simpl.
  rewrite bool_decide_eq_true_2 by congruence.
  apply Z.eqb_eq in HT. rewrite HT. simpl.
  by destruct (VerifySignature crypto x).
Qed.

(** What the two outcomes do to the publish state. *)
Lemma IntroSetPublished_state (env : Endpoint.Env) (e : Endpoint.t) :
  Endpoint.m_CurrentPublishTX (Endpoint.IntroSetPublished env e) = 0
  /\ Endpoint.m_LastPublish (Endpoint.IntroSetPublished env e) = Endpoint.llarp_time_now_ms env
  /\ Endpoint.m_LastPublishAttempt (Endpoint.IntroSetPublished env e)
     = Endpoint.m_LastPublishAttempt e.
Proof. done. Qed.

Lemma IntroSetPublishFail_state (e : Endpoint.t) :
  Endpoint.m_CurrentPublishTX (Endpoint.IntroSetPublishFail e) = 0
  /\ Endpoint.m_LastPublish (Endpoint.IntroSetPublishFail e) = Endpoint.m_LastPublish e
  /\ Endpoint.m_LastPublishAttempt (Endpoint.IntroSetPublishFail e)
     = Endpoint.m_LastPublishAttempt e.
Proof. done. Qed.

Lemma HandleGotIntroMessage_loop_foreign_forged (crypto : llarp_crypto)
    (env : Endpoint.Env) (T : Z) (x : IntroSet.t) (post remote : list IntroSet.t)
    (e : Endpoint.t) :
  IntroSet.A x <> Endpoint.m_Identity_pub e ->
  VerifySignature crypto x = false ->
  Endpoint.HandleGotIntroMessage_loop crypto env T (x :: post) remote e
  = Endpoint.Return (false, e).
Proof.
  intros HA Hsig. simpl. rewrite Hsig. simpl.
  rewrite bool_decide_eq_false_2 by congruence. done.
Qed.

(** C4, as the code has it. Let the message carry the txid of the publish
    in flight, and let [x] be the first introset of [msg->I] that fails
    verification or carries the endpoint's own identity. If [x] carries
    that identity and its signature verifies, HandleGotIntroMessage returns
    true after IntroSetPublished, which clears m_CurrentPublishTX and
    records m_LastPublish; if [x] carries that identity and its signature
    does not verify, it returns false after IntroSetPublishFail, which
    clears m_CurrentPublishTX and leaves m_LastPublishAttempt as it was;
    and if [x] is a foreign introset whose signature does not verify, the
    message is rejected at [x]: the function returns false and neither
    IntroSetPublished nor IntroSetPublishFail runs, whatever follows [x]
    in the message. No lookup handler is called in any of the three
    cases. *)
Theorem HandleGotIntroMessage_publish_confirmation (crypto : llarp_crypto)
    (env : Endpoint.Env) (msg : Endpoint.GotIntroMessage.t) (e : Endpoint.t)
    (pre post : list IntroSet.t) (x : IntroSet.t) :
  Endpoint.GotIntroMessage.T msg = Endpoint.m_CurrentPublishTX e ->
  Endpoint.GotIntroMessage.I msg = pre ++ x :: post ->
  Forall (fun s => VerifySignature crypto s = true
                   /\ IntroSet.A s <> Endpoint.m_Identity_pub e) pre ->
  (IntroSet.A x = Endpoint.m_Identity_pub e ->
   VerifySignature crypto x = true ->
     Endpoint.HandleGotIntroMessage crypto env msg e
       = (true, Endpoint.IntroSetPublished env e, [])
     /\ Endpoint.m_CurrentPublishTX (Endpoint.IntroSetPublished env e) = 0
     /\ Endpoint.m_LastPublish (Endpoint.IntroSetPublished env e)
        = Endpoint.llarp_time_now_ms env)
  /\
  (IntroSet.A x = Endpoint.m_Identity_pub e ->
   VerifySignature crypto x = false ->
     Endpoint.HandleGotIntroMessage crypto env msg e
       = (false, Endpoint.IntroSetPublishFail e, [])
     /\ Endpoint.m_CurrentPublishTX (Endpoint.IntroSetPublishFail e) = 0
     /\ Endpoint.m_LastPublishAttempt (Endpoint.IntroSetPublishFail e)
        = Endpoint.m_LastPublishAttempt e)
  /\
  (IntroSet.A x <> Endpoint.m_Identity_pub e ->
   VerifySignature crypto x = false ->
     Endpoint.HandleGotIntroMessage crypto env msg e = (false, e, [])).
Proof.
  intros HT HI Hpre.
  destruct (HandleGotIntroMessage_loop_skip crypto env (Endpoint.GotIntroMessage.T msg)
              pre (x :: post) [] e (eq_sym HT) Hpre) as [remote' Hskip].
  unfold Endpoint.HandleGotIntroMessage. rewrite HI, Hskip.
  split; [|split].
  - intros HA Hsig. rewrite HandleGotIntroMessage_loop_ours, Hsig by done. done.
  - intros HA Hsig. rewrite HandleGotIntroMessage_loop_ours, Hsig by done. done.
  - intros HA Hsig. by rewrite HandleGotIntroMessage_loop_foreign_forged.
Qed.

Lemma HandleGotIntroMessage_publish_confirmation_witness :
  Endpoint.HandleGotIntroMessage Examples.crypto0 Examples.env0
    (Endpoint.GotIntroMessage.mk 42 [Examples.bob_signed; Examples.alice_signed])
    Examples.publishing_endpoint
  = (true, Endpoint.IntroSetPublished Examples.env0 Examples.publishing_endpoint, [])
  /\
  Endpoint.HandleGotIntroMessage Examples.crypto0 Examples.env0
    (Endpoint.GotIntroMessage.mk 42 [Examples.bob_signed; Examples.alice_forged])
    Examples.publishing_endpoint
  = (false, Endpoint.IntroSetPublishFail Examples.publishing_endpoint, [])
  /\
  Endpoint.HandleGotIntroMessage Examples.crypto0 Examples.env0
    (Endpoint.GotIntroMessage.mk 42
       [Examples.bob_signed; Examples.bob_forged; Examples.alice_signed])
    Examples.publishing_endpoint
  = (false, Examples.publishing_endpoint, []).
Proof.
  assert (Forall (fun s => VerifySignature Examples.crypto0 s = true
                           /\ IntroSet.A s
                              <> Endpoint.m_Identity_pub Examples.publishing_endpoint)
            [Examples.bob_signed]) as Hpre.
  { repeat constructor. discriminate. }
  split; [|split].
  - exact (proj1 (proj1 (HandleGotIntroMessage_publish_confirmation Examples.crypto0
                           Examples.env0
                           (Endpoint.GotIntroMessage.mk 42
                              [Examples.bob_signed; Examples.alice_signed])
                           Examples.publishing_endpoint [Examples.bob_signed] []
                           Examples.alice_signed eq_refl eq_refl Hpre)
                    eq_refl eq_refl)).
  - exact (proj1 (proj1 (proj2 (HandleGotIntroMessage_publish_confirmation
                                  Examples.crypto0 Examples.env0
                                  (Endpoint.GotIntroMessage.mk 42
                                     [Examples.bob_signed; Examples.alice_forged])
                                  Examples.publishing_endpoint [Examples.bob_signed] []
                                  Examples.alice_forged eq_refl eq_refl Hpre))
                    eq_refl eq_refl)).
  - apply (proj2 (proj2 (HandleGotIntroMessage_publish_confirmation
                           Examples.crypto0 Examples.env0
                           (Endpoint.GotIntroMessage.mk 42
                              [Examples.bob_signed; Examples.bob_forged;
                               Examples.alice_signed])
                           Examples.publishing_endpoint [Examples.bob_signed]
                           [Examples.alice_signed] Examples.bob_forged
                           eq_refl eq_refl Hpre))); [discriminate | reflexivity].
Defined.

(** C4 as stated fails: the message carries the txid of the publish in
    flight and contains the endpoint's own introset with a signature that
    verifies, but a forged foreign introset comes first; the function
    returns false at the forged one and neither IntroSetPublished nor
    IntroSetPublishFail runs, so m_CurrentPublishTX stays 42. *)
Lemma HandleGotIntroMessage_forged_first :
  Endpoint.m_CurrentPublishTX Examples.publishing_endpoint = 42
  /\ Examples.alice_signed ∈ [Examples.bob_forged; Examples.alice_signed]
  /\ IntroSet.A Examples.alice_signed = Endpoint.m_Identity_pub Examples.publishing_endpoint
  /\ VerifySignature Examples.crypto0 Examples.alice_signed = true
  /\ Endpoint.HandleGotIntroMessage Examples.crypto0 Examples.env0
       (Endpoint.GotIntroMessage.mk 42 [Examples.bob_forged; Examples.alice_signed])
       Examples.publishing_endpoint
     = (false, Examples.publishing_endpoint, [])
  /\ Endpoint.m_CurrentPublishTX
       (Endpoint.HandleGotIntroMessage Examples.crypto0 Examples.env0
          (Endpoint.GotIntroMessage.mk 42 [Examples.bob_forged; Examples.alice_signed])
          Examples.publishing_endpoint).1.2 = 42.
Proof.
  split; [reflexivity|]. split; [set_solver|]. repeat split; reflexivity.
Qed.

(** ** Endpoint::Tick: expiry of pending lookups *)

Lemma handler_calls_app (key : Z) (evs1 evs2 : list Endpoint.Event) :
  Endpoint.handler_calls key (evs1 ++ evs2)
  = Endpoint.handler_calls key evs1 ++ Endpoint.handler_calls key evs2.
Proof. apply omap_app. Qed.

Lemma Tick_expire_loop_table (now : llarp_time_t) (itr : list (Z * IServiceLookup.t))
    (pending : gmap Z IServiceLookup.t) (evs : list Endpoint.Event) (k : Z) :
  NoDup itr.*1 ->
  (Endpoint.Tick_expire_loop now itr pending evs).1 !! k =
    if expiry_of now ((list_to_map itr : gmap Z IServiceLookup.t) !! k)
    then None else pending !! k.
Proof.
  revert pending evs. induction itr as [|[key lookup] rest IH]; intros pending evs Hnd.
  - simpl. by rewrite lookup_empty.
  - apply NoDup_cons in Hnd as [Hfresh Hnd]. simpl in Hfresh. simpl.
    destruct (decide (key = k)) as [->|Hne].
    + rewrite lookup_insert_eq. simpl.
      apply (not_elem_of_list_to_map_1 (M := gmap Z)) in Hfresh.
      destruct (IServiceLookup.IsTimedOut lookup now) eqn:Hout;
        rewrite IH, Hfresh by done; simpl; [apply lookup_delete_eq | done].
    + rewrite lookup_insert_ne by done.
      destruct (IServiceLookup.IsTimedOut lookup now) eqn:Hout; rewrite IH by done.
      * rewrite lookup_delete_ne by done. done.
      * done.
Qed.

Lemma Tick_expire_loop_calls (now : llarp_time_t) (itr : list (Z * IServiceLookup.t))
    (pending : gmap Z IServiceLookup.t) (evs : list Endpoint.Event) (k : Z) :
  NoDup itr.*1 ->
  Endpoint.handler_calls k (Endpoint.Tick_expire_loop now itr pending evs).2 =
    Endpoint.handler_calls k evs ++
    (if expiry_of now ((list_to_map itr : gmap Z IServiceLookup.t) !! k)
     then [[]] else []).
Proof.
  revert pending evs. induction itr as [|[key lookup] rest IH]; intros pending evs Hnd.
  - simpl. rewrite lookup_empty. simpl. by rewrite app_nil_r.
  - apply NoDup_cons in Hnd as [Hfresh Hnd]. simpl in Hfresh. simpl.
    destruct (decide (key = k)) as [->|Hne].
    + rewrite lookup_insert_eq. simpl.
      apply (not_elem_of_list_to_map_1 (M := gmap Z)) in Hfresh.
      destruct (IServiceLookup.IsTimedOut lookup now) eqn:Hout;
        rewrite IH, Hfresh by done; simpl.
      * rewrite handler_calls_app. simpl. rewrite bool_decide_eq_true_2 by done.
        by rewrite app_nil_r.
      * done.
    + rewrite lookup_insert_ne by done.
      destruct (IServiceLookup.IsTimedOut lookup now) eqn:Hout; rewrite IH by done.
      * rewrite handler_calls_app. simpl. rewrite bool_decide_eq_false_2 by done.
        by rewrite app_nil_r.
      * done.
Qed.

(** The "expire pending tx" block on its own. *)
Lemma Tick_expire_pending_tx_spec (now : llarp_time_t) (e : Endpoint.t) (k : Z) :
  Endpoint.m_PendingLookups (Endpoint.Tick_expire_pending_tx now e).1 !! k
    = (if expiry_of now (Endpoint.m_PendingLookups e !! k)
       then None else Endpoint.m_PendingLookups e !! k)
  /\ Endpoint.handler_calls k (Endpoint.Tick_expire_pending_tx now e).2
    = (if expiry_of now (Endpoint.m_PendingLookups e !! k) then [[]] else []).
Proof.
  unfold Endpoint.Tick_expire_pending_tx.
  pose proof (Tick_expire_loop_table now (map_to_list (Endpoint.m_PendingLookups e))
                (Endpoint.m_PendingLookups e) [] k (NoDup_fst_map_to_list _)) as Htab.
  pose proof (Tick_expire_loop_calls now (map_to_list (Endpoint.m_PendingLookups e))
                (Endpoint.m_PendingLookups e) [] k (NoDup_fst_map_to_list _)) as Hcalls.
  rewrite list_to_map_to_list in Htab, Hcalls.
  destruct (Endpoint.Tick_expire_loop _ _ _ _) as [pending evs]. simpl in *.
  by rewrite Htab, Hcalls.
Qed.

(** The publish block does not touch the pending lookups and calls no
    handler. *)
Lemma Tick_publish_descriptors_pending `{Intervals} (crypto : llarp_crypto)
    (env : Endpoint.Env) (now : llarp_time_t) (e e1 : Endpoint.t)
    (evs1 : list Endpoint.Event) (k : Z) :
  Endpoint.Tick_publish_descriptors crypto env now e = Endpoint.Continue (e1, evs1) ->
  Endpoint.m_PendingLookups e1 = Endpoint.m_PendingLookups e
  /\ Endpoint.handler_calls k evs1 = [].
Proof.
  unfold Endpoint.Tick_publish_descriptors, Endpoint.GetCurrentIntroductions,
    Endpoint.PublishIntroSet.
  repeat (case_match; simplify_eq/=); intros; simplify_eq/=; done.
Qed.

Lemma Tick_reset_publish_tx_pending `{Intervals} (now : llarp_time_t) (e : Endpoint.t) :
  Endpoint.m_PendingLookups (Endpoint.Tick_reset_publish_tx now e)
  = Endpoint.m_PendingLookups e.
Proof. unfold Endpoint.Tick_reset_publish_tx. by case_match. Qed.

(** When the publish block returns from Tick. *)
Lemma Tick_publish_descriptors_continues `{Intervals} (crypto : llarp_crypto)
    (env : Endpoint.Env) (now : llarp_time_t) (e : Endpoint.t) :
  Endpoint.ShouldPublishDescriptors now e = false
  \/ (Endpoint.established_intros env <> []
      /\ is_Some (SignIntroSet crypto (Endpoint.m_Identity_pub e)
                    (IntroSet.set_topic (Endpoint.m_Tag e)
                       (IntroSet.set_I (Endpoint.established_intros env)
                          (Endpoint.m_IntroSet e))))) ->
  exists r, Endpoint.Tick_publish_descriptors crypto env now e = Endpoint.Continue r.
Proof.
  unfold Endpoint.Tick_publish_descriptors, Endpoint.GetCurrentIntroductions.
  intros [Hno | [Hintros [signed Hsign]]].
  - rewrite Hno. eauto.
  - destruct (Endpoint.ShouldPublishDescriptors now e); [|eauto].
    rewrite bool_decide_eq_false_2 by done. simpl. simpl in Hsign. rewrite Hsign.
    destruct (Endpoint.PublishIntroSet env _) as [[ok e2] evs]. eauto.
Qed.

(** C6, as the code has it. When Tick(now) gets past its publish block
    (no publish is due, or introductions were gathered and the introset
    was signed), then at the end of its "expire pending tx" block, of the
    lookups pending at the call each one whose deadline is past is gone
    from m_PendingLookups and its handler has been called exactly once,
    with the empty set, and each one whose deadline is not past is still
    stored and its handler has not been called. *)
Theorem Tick_expires_pending_lookups `{Intervals} (crypto : llarp_crypto)
    (env : Endpoint.Env) (now : llarp_time_t) (e : Endpoint.t)
    (key : Z) (lookup : IServiceLookup.t) :
  Endpoint.ShouldPublishDescriptors now (Endpoint.Tick_reset_publish_tx now e) = false
  \/ (Endpoint.established_intros env <> []
      /\ is_Some (SignIntroSet crypto (Endpoint.m_Identity_pub e)
                    (IntroSet.set_topic (Endpoint.m_Tag e)
                       (IntroSet.set_I (Endpoint.established_intros env)
                          (Endpoint.m_IntroSet e))))) ->
  Endpoint.m_PendingLookups e !! key = Some lookup ->
  (IServiceLookup.IsTimedOut lookup now = true ->
     Endpoint.m_PendingLookups (Endpoint.Tick crypto env now e).1 !! key = None
     /\ Endpoint.handler_calls key (Endpoint.Tick crypto env now e).2 = [[]])
  /\
  (IServiceLookup.IsTimedOut lookup now = false ->
     Endpoint.m_PendingLookups (Endpoint.Tick crypto env now e).1 !! key = Some lookup
     /\ Endpoint.handler_calls key (Endpoint.Tick crypto env now e).2 = []).
Proof.
  intros Hpast Hkey.
  destruct (Tick_publish_descriptors_continues crypto env now
              (Endpoint.Tick_reset_publish_tx now e)) as [[e1 evs1] Hcont].
  { destruct Hpast as [Hno | Hyes]; [by left | right].
    unfold Endpoint.Tick_reset_publish_tx. by case_match. }
  unfold Endpoint.Tick. rewrite Hcont.
  destruct (Tick_publish_descriptors_pending crypto env now _ e1 evs1 key Hcont)
    as [Hsame Hquiet].
  rewrite Tick_reset_publish_tx_pending in Hsame.
  destruct (Tick_expire_pending_tx_spec now e1 key) as [Htab Hcalls].
  destruct (Endpoint.Tick_expire_pending_tx now e1) as [e2 evs2]. simpl in *.
  rewrite handler_calls_app, Hquiet, Htab, Hcalls, Hsame, Hkey. simpl.
  split; intros Hout; rewrite Hout; done.
Qed.

Lemma Tick_expires_pending_lookups_witness :
  (Endpoint.m_PendingLookups
     (Endpoint.Tick (H := Examples.intervals) Examples.crypto0 Examples.env0 2000000
        Examples.endpoint_with_lookups_publishing).1 !! 3 = None
   /\ Endpoint.handler_calls 3
        (Endpoint.Tick (H := Examples.intervals) Examples.crypto0 Examples.env0 2000000
           Examples.endpoint_with_lookups_publishing).2 = [[]])
  /\
  (Endpoint.m_PendingLookups
     (Endpoint.Tick (H := Examples.intervals) Examples.crypto0 Examples.env0 2000000
        Examples.endpoint_with_lookups_publishing).1 !! 4 = Some Examples.lookup_fresh
   /\ Endpoint.handler_calls 4
        (Endpoint.Tick (H := Examples.intervals) Examples.crypto0 Examples.env0 2000000
           Examples.endpoint_with_lookups_publishing).2 = []).
Proof.
  split.
  - apply (Tick_expires_pending_lookups (H := Examples.intervals) Examples.crypto0
             Examples.env0 2000000 Examples.endpoint_with_lookups_publishing
             3 Examples.lookup_late); [left; reflexivity | reflexivity | reflexivity].
  - apply (Tick_expires_pending_lookups (H := Examples.intervals) Examples.crypto0
             Examples.env0 2000000 Examples.endpoint_with_lookups_publishing
             4 Examples.lookup_fresh); [left; reflexivity | reflexivity | reflexivity].
Defined.

(** C6 as stated fails: at time 2000000 a publish is due for
    [endpoint_with_lookups], the path set has no introduction to offer, and
    Tick returns from its publish block; the lookup stored under 3, whose
    deadline is past, is still pending afterwards and its handler has not
    been called. *)
Lemma Tick_returns_before_expiry :
  Endpoint.m_PendingLookups Examples.endpoint_with_lookups !! 3 = Some Examples.lookup_late
  /\ IServiceLookup.IsTimedOut Examples.lookup_late 2000000 = true
  /\ Endpoint.m_PendingLookups
       (Endpoint.Tick (H := Examples.intervals) Examples.crypto0 Examples.env0 2000000
          Examples.endpoint_with_lookups).1 !! 3 = Some Examples.lookup_late
  /\ Endpoint.handler_calls 3
       (Endpoint.Tick (H := Examples.intervals) Examples.crypto0 Examples.env0 2000000
          Examples.endpoint_with_lookups).2 = [].
Proof. repeat split; reflexivity. Qed.

(** ** EnsurePathToService *)

(** C7. With an established path, no remote session for [remote] and a
    service lookup for [remote] already pending, EnsurePathToService
    returns false, leaves the endpoint (m_PendingServiceLookups included)
    as it was and calls no hook. *)
Theorem EnsurePathToService_duplicate (env : Endpoint.Env) (remote : Address)
    (hook : PathEnsureHook) (timeoutMS : llarp_time_t) (e : Endpoint.t)
    (path : Path) (pending : PathEnsureHook) :
  Endpoint.GetEstablishedPathClosestTo env remote = Some path ->
  Endpoint.m_RemoteSessions e !! remote = None ->
  Endpoint.m_PendingServiceLookups e !! remote = Some pending ->
  Endpoint.EnsurePathToService env remote hook timeoutMS e = (false, e, [])
  /\ Endpoint.hooks_called (Endpoint.EnsurePathToService env remote hook timeoutMS e).2 = []
  /\ Endpoint.m_PendingServiceLookups
       (Endpoint.EnsurePathToService env remote hook timeoutMS e).1.2
     = Endpoint.m_PendingServiceLookups e.
Proof.
  intros Hpath Hnone Hdup. unfold Endpoint.EnsurePathToService.
  rewrite Hpath, Hnone, Hdup. done.
Qed.

Lemma EnsurePathToService_duplicate_witness :
  Endpoint.EnsurePathToService Examples.env0 8 2 10000 Examples.endpoint_pending_8
  = (false, Examples.endpoint_pending_8, []).
Proof.
  apply (EnsurePathToService_duplicate Examples.env0 8 2 10000
           Examples.endpoint_pending_8 9 1); reflexivity.
Defined.

(** ** The selected introduction of an OutboundContext *)

Lemma ShiftIntroduction_loop_cases (l : list Introduction.t) (sel : Introduction.t)
    (evs : list OutboundContext.Event) :
  (OutboundContext.ShiftIntroduction_loop l sel evs).1 = sel
  \/ (OutboundContext.ShiftIntroduction_loop l sel evs).1 ∈ l.
Proof.
  revert sel evs. induction l as [|i l IH]; intros sel evs; simpl.
  - by left.
  - destruct (Introduction.expiresAt sel <? Introduction.expiresAt i).
    + right. destruct (IH i (evs ++ [OutboundContext.EnsureRouterIsKnown
                                        (Introduction.router sel)])) as [-> | Hin].
      * apply list_elem_of_here.
      * by apply list_elem_of_further.
    + destruct (IH sel (evs ++ [OutboundContext.EnsureRouterIsKnown
                                  (Introduction.router sel)])) as [-> | Hin].
      * by left.
      * right. by apply list_elem_of_further.
Qed.

Lemma ShiftIntroduction_loop_later (l : list Introduction.t) (sel i : Introduction.t)
    (evs : list OutboundContext.Event) :
  i ∈ l -> Introduction.expiresAt sel < Introduction.expiresAt i ->
  (OutboundContext.ShiftIntroduction_loop l sel evs).1 ∈ l.
Proof.
  revert sel evs. induction l as [|j l IH]; intros sel evs Hin Hlt.
  - by apply elem_of_nil in Hin.
  - simpl. destruct (Introduction.expiresAt sel <? Introduction.expiresAt j) eqn:Hcmp.
    + destruct (ShiftIntroduction_loop_cases l j
                  (evs ++ [OutboundContext.EnsureRouterIsKnown (Introduction.router sel)]))
        as [-> | Hin'].
      * apply list_elem_of_here.
      * by apply list_elem_of_further.
    + apply Z.ltb_nlt in Hcmp. apply elem_of_cons in Hin as [-> | Hin]; [lia|].
      apply list_elem_of_further. by apply IH.
Qed.

(** The expiry of the selected introduction never goes down in the loop,
    and ends at least as late as every introduction of the list. *)
Lemma ShiftIntroduction_loop_latest (l : list Introduction.t) (sel : Introduction.t)
    (evs : list OutboundContext.Event) :
  Introduction.expiresAt sel
    <= Introduction.expiresAt (OutboundContext.ShiftIntroduction_loop l sel evs).1
  /\ forall i, i ∈ l ->
       Introduction.expiresAt i
       <= Introduction.expiresAt (OutboundContext.ShiftIntroduction_loop l sel evs).1.
Proof.
  revert sel evs. induction l as [|j l IH]; intros sel evs; simpl.
  - split; [lia|]. intros i Hin. by apply elem_of_nil in Hin.
  - destruct (Introduction.expiresAt sel <? Introduction.expiresAt j) eqn:Hcmp.
    + apply Z.ltb_lt in Hcmp.
      destruct (IH j (evs ++ [OutboundContext.EnsureRouterIsKnown (Introduction.router sel)]))
        as [Hge Hall].
      split; [lia|]. intros i [-> | Hin]%elem_of_cons; [lia | by apply Hall].
    + apply Z.ltb_nlt in Hcmp.
      destruct (IH sel (evs ++ [OutboundContext.EnsureRouterIsKnown (Introduction.router sel)]))
        as [Hge Hall].
      split; [lia|]. intros i [-> | Hin]%elem_of_cons; [lia | by apply Hall].
Qed.

Lemma ShiftIntroduction_fields (c : OutboundContext.t) :
  OutboundContext.currentIntroSet (OutboundContext.ShiftIntroduction c).1
    = OutboundContext.currentIntroSet c
  /\ OutboundContext.selectedIntro (OutboundContext.ShiftIntroduction c).1
    = (OutboundContext.ShiftIntroduction_loop
         (IntroSet.I (OutboundContext.currentIntroSet c))
         (OutboundContext.selectedIntro c) []).1.
Proof.
  unfold OutboundContext.ShiftIntroduction.
  by destruct (OutboundContext.ShiftIntroduction_loop _ _ _).
Qed.

Lemma OnIntroSetUpdate_selectedIntro (i : option IntroSet.t) (c : OutboundContext.t) :
  OutboundContext.selectedIntro (OutboundContext.OnIntroSetUpdate i c).2
  = OutboundContext.selectedIntro c.
Proof. rewrite OnIntroSetUpdate_cases. destruct i; [case_decide|]; done. Qed.

(** C8, as the code has it. The selected introduction is an element of
    currentIntroSet.I after the constructor when the introset has an
    introduction of non-zero expiry, and after a ShiftIntroduction that
    finds an introduction expiring later than the selected one; the
    membership is kept by ShiftIntroduction, by an OnIntroSetUpdate that
    rejects its argument, and by one that accepts an introset containing
    the selected introduction. *)
Theorem selectedIntro_in_currentIntroSet (c : OutboundContext.t) :
  OutboundContext.aligned c ->
  OutboundContext.selectedIntro c ∈ IntroSet.I (OutboundContext.currentIntroSet c).
Proof.
  induction 1 as [s i Hin Hpos | i c Hc IH Hrej | s c Hc IH Hin | i c Hc Hin Hlt | c Hc IH].
  - unfold OutboundContext.new.
    destruct (ShiftIntroduction_fields (OutboundContext.mk s Introduction.Clear))
      as [-> ->]. simpl.
    by apply ShiftIntroduction_loop_later with i.
  - rewrite OnIntroSetUpdate_cases. destruct Hrej as [-> | (s & -> & Hold)]; [done|].
    unfold IntroSet.IsNewerThan in Hold. apply Z.ltb_nlt in Hold. by case_decide.
  - rewrite OnIntroSetUpdate_cases. by case_decide.
  - destruct (ShiftIntroduction_fields c) as [-> ->].
    by apply ShiftIntroduction_loop_later with i.
  - destruct (ShiftIntroduction_fields c) as [-> ->].
    destruct (ShiftIntroduction_loop_cases (IntroSet.I (OutboundContext.currentIntroSet c))
                (OutboundContext.selectedIntro c) []) as [-> | Hin]; done.
Qed.

Lemma selectedIntro_in_currentIntroSet_witness :
  OutboundContext.selectedIntro
    (OutboundContext.ShiftIntroduction (OutboundContext.new Examples.bob_first).1).1
  ∈ IntroSet.I
      (OutboundContext.currentIntroSet
         (OutboundContext.ShiftIntroduction (OutboundContext.new Examples.bob_first).1).1).
Proof.
  apply (selectedIntro_in_currentIntroSet
           (OutboundContext.ShiftIntroduction (OutboundContext.new Examples.bob_first).1).1).
  apply OutboundContext.aligned_shift.
  apply (OutboundContext.aligned_new Examples.bob_first Examples.intro_a).
  - apply list_elem_of_here.
  - reflexivity.
Defined.

(** C8 as stated fails: [ctx_updated] is reached by the constructor, an
    accepted OnIntroSetUpdate and a ShiftIntroduction; its introset has the
    one introduction [intro_b], and the selected introduction still is
    [intro_a] of the replaced introset, which expires later. *)
Lemma selectedIntro_left_behind :
  OutboundContext.reachable Examples.ctx_updated
  /\ IntroSet.I (OutboundContext.currentIntroSet Examples.ctx_updated) = [Examples.intro_b]
  /\ OutboundContext.selectedIntro Examples.ctx_updated = Examples.intro_a
  /\ OutboundContext.selectedIntro Examples.ctx_updated
     ∉ IntroSet.I (OutboundContext.currentIntroSet Examples.ctx_updated).
Proof.
  split; [|split; [reflexivity|split; [reflexivity|]]].
  - unfold Examples.ctx_updated.
    apply OutboundContext.reach_shift, OutboundContext.reach_update,
      OutboundContext.reach_new.
  - change (Examples.intro_a ∉ [Examples.intro_b]).
    rewrite list_elem_of_singleton. discriminate.
Qed.

(** ** GetSeqNoForConvo *)

Lemma GetSeqNoForConvo_entry (tag : ConvoTag) (e : Endpoint.t) (s : Session.t) :
  Endpoint.m_Sessions e !! tag = Some s ->
  Endpoint.GetSeqNoForConvo tag e =
    (U64.succ (Session.seqno s),
     Endpoint.set_Sessions
       (<[tag := Session.set_seqno (U64.succ (Session.seqno s)) s]> (Endpoint.m_Sessions e)) e).
Proof. intros Hs. unfold Endpoint.GetSeqNoForConvo. by rewrite Hs. Qed.

Lemma GetSeqNoForConvo_no_entry (tag : ConvoTag) (e : Endpoint.t) :
  Endpoint.m_Sessions e !! tag = None -> Endpoint.GetSeqNoForConvo tag e = (0, e).
Proof. intros Hs. unfold Endpoint.GetSeqNoForConvo. by rewrite Hs. Qed.

(** Below the top of the range, [n] successive calls return the [n]
    successors of the stored sequence number. *)
Lemma GetSeqNoForConvo_repeat_values (n : nat) (tag : ConvoTag) (e : Endpoint.t)
    (s : Session.t) :
  Endpoint.m_Sessions e !! tag = Some s ->
  0 <= Session.seqno s -> Session.seqno s + Z.of_nat n <= U64.max ->
  (GetSeqNoForConvo_repeat n tag e).1
  = (fun k : nat => Session.seqno s + Z.of_nat k) <$> seq 1 n.
Proof.
  revert e s. induction n as [|n IH]; intros e s Hs Hlo Hhi; [reflexivity|].
  simpl GetSeqNoForConvo_repeat. rewrite (GetSeqNoForConvo_entry tag e s Hs).
  rewrite U64_succ_small by lia.
  set (s1 := Session.set_seqno (Session.seqno s + 1) s).
  set (e1 := Endpoint.set_Sessions (<[tag := s1]> (Endpoint.m_Sessions e)) e).
  specialize (IH e1 s1).
  destruct (GetSeqNoForConvo_repeat n tag e1) as [rs e2]. simpl in IH |- *.
  rewrite IH.
  - f_equal.
    rewrite <- (fmap_S_seq 1 n), <- list_fmap_compose.
    apply list_fmap_ext. intros i k Hk. simpl. lia.
  - apply lookup_insert_eq.
  - simpl. lia.
  - simpl. lia.
Qed.

Lemma seq_successors_increasing (base : Z) (start n : nat) :
  StronglySorted Z.lt ((fun k : nat => base + Z.of_nat k) <$> seq start n).
Proof.
  revert start. induction n as [|n IH]; intros start; simpl.
  - constructor.
  - constructor; [apply IH|].
    apply Forall_fmap, Forall_forall. intros k Hk%elem_of_seq. simpl. lia.
Qed.

(** A session entry made by one of the three Put functions for a tag that
    had none starts at sequence number 0. *)
Lemma fresh_session_seqno (env : Endpoint.Env) (tag : ConvoTag) (e : Endpoint.t)
    (info : ServiceInfo.t) (intro : Introduction.t) (k : SharedSecret) :
  Endpoint.m_Sessions e !! tag = None ->
  (exists s, Endpoint.m_Sessions (Endpoint.PutSenderFor env tag info e) !! tag = Some s
             /\ Session.seqno s = 0)
  /\ (exists s, Endpoint.m_Sessions (Endpoint.PutIntroFor env tag intro e) !! tag = Some s
                /\ Session.seqno s = 0)
  /\ (exists s, Endpoint.m_Sessions (Endpoint.PutCachedSessionKeyFor env tag k e) !! tag = Some s
                /\ Session.seqno s = 0).
Proof.
  intros Hnone.
  unfold Endpoint.PutSenderFor, Endpoint.PutIntroFor, Endpoint.PutCachedSessionKeyFor,
    Endpoint.find_or_insert_session.
  rewrite Hnone. simpl. rewrite !lookup_insert_eq. repeat split; eauto.
Qed.

Lemma GetSeqNoForConvo_after_Put (env : Endpoint.Env) (tag : ConvoTag) (e : Endpoint.t)
    (info : ServiceInfo.t) (intro : Introduction.t) (k : SharedSecret) :
  Endpoint.m_Sessions e !! tag = None ->
  (Endpoint.GetSeqNoForConvo tag (Endpoint.PutSenderFor env tag info e)).1 = 1
  /\ (Endpoint.GetSeqNoForConvo tag (Endpoint.PutIntroFor env tag intro e)).1 = 1
  /\ (Endpoint.GetSeqNoForConvo tag (Endpoint.PutCachedSessionKeyFor env tag k e)).1 = 1.
Proof.
  intros Hnone.
  destruct (fresh_session_seqno env tag e info intro k Hnone)
    as ((s1 & Hs1 & Hz1) & (s2 & Hs2 & Hz2) & (s3 & Hs3 & Hz3)).
  rewrite (GetSeqNoForConvo_entry _ _ _ Hs1), (GetSeqNoForConvo_entry _ _ _ Hs2),
    (GetSeqNoForConvo_entry _ _ _ Hs3). simpl.
  rewrite Hz1, Hz2, Hz3. done.
Qed.

Lemma GetSeqNoForConvo_example_step (a : Z) :
  0 <= a < U64.max ->
  Endpoint.GetSeqNoForConvo 5 (Examples.endpoint_with_seqno a)
  = (a + 1, Examples.endpoint_with_seqno (a + 1)).
Proof.
  intros Ha.
  rewrite (GetSeqNoForConvo_entry 5 (Examples.endpoint_with_seqno a)
             (Examples.session_with_seqno a)) by apply lookup_singleton_eq.
  change (Session.seqno (Examples.session_with_seqno a)) with a.
  rewrite U64_succ_small by lia.
  unfold Examples.endpoint_with_seqno, Endpoint.set_Sessions. simpl.
  by rewrite insert_singleton_eq.
Qed.

(** The endpoint of the examples after [n] calls on its one session. *)
Lemma GetSeqNoForConvo_repeat_state (n : nat) (a : Z) :
  0 <= a -> a + Z.of_nat n <= U64.max ->
  (GetSeqNoForConvo_repeat n 5 (Examples.endpoint_with_seqno a)).2
  = Examples.endpoint_with_seqno (a + Z.of_nat n).
Proof.
  revert a. induction n as [|n IH]; intros a Hlo Hhi.
  - simpl. by rewrite Z.add_0_r.
  - simpl GetSeqNoForConvo_repeat.
    rewrite GetSeqNoForConvo_example_step by lia.
    specialize (IH (a + 1)).
    destruct (GetSeqNoForConvo_repeat n 5 (Examples.endpoint_with_seqno (a + 1)))
      as [rs e2]. simpl in *.
    rewrite IH by lia. f_equal. lia.
Qed.

(** The sessions at the top of the range are what 2^64 - 2 and 2^64 - 1
    calls leave of a session that starts at 0. *)
Lemma top_of_range_reached :
  exists n : nat,
    Z.of_nat n = U64.max - 1
    /\ (GetSeqNoForConvo_repeat n 5 (Examples.endpoint_with_seqno 0)).2
       = Examples.endpoint_with_seqno (U64.max - 1)
    /\ (GetSeqNoForConvo_repeat (S n) 5 (Examples.endpoint_with_seqno 0)).2
       = Examples.endpoint_with_seqno U64.max.
Proof.
  assert (0 <= U64.max - 1) as Hpos by (unfold U64.max, U64.modulus; lia).
  destruct (Z_of_nat_complete (U64.max - 1) Hpos) as [n Hn].
  exists n. split; [lia|]. split.
  - rewrite GetSeqNoForConvo_repeat_state by lia.
    rewrite Z.add_0_l. by rewrite <- Hn.
  - rewrite GetSeqNoForConvo_repeat_state by lia.
    rewrite Z.add_0_l, Nat2Z.inj_succ, <- Hn. f_equal.
Qed.

(** C9, as the code has it. While the sequence number of the entry stays
    below 2^64 - 1, successive calls of GetSeqNoForConvo on its tag return
    its successors one by one, a strictly increasing sequence; and the
    first call after the entry has been created, by PutSenderFor,
    PutIntroFor or PutCachedSessionKeyFor on a tag without one, returns
    1. *)
Theorem GetSeqNoForConvo_increasing (tag : ConvoTag) (e : Endpoint.t) :
  (forall (n : nat) (s : Session.t),
     Endpoint.m_Sessions e !! tag = Some s ->
     0 <= Session.seqno s -> Session.seqno s + Z.of_nat n <= U64.max ->
     (GetSeqNoForConvo_repeat n tag e).1
       = (fun k : nat => Session.seqno s + Z.of_nat k) <$> seq 1 n
     /\ StronglySorted Z.lt (GetSeqNoForConvo_repeat n tag e).1)
  /\
  (Endpoint.m_Sessions e !! tag = None ->
   forall (env : Endpoint.Env) (info : ServiceInfo.t) (intro : Introduction.t)
          (k : SharedSecret),
     (Endpoint.GetSeqNoForConvo tag (Endpoint.PutSenderFor env tag info e)).1 = 1
     /\ (Endpoint.GetSeqNoForConvo tag (Endpoint.PutIntroFor env tag intro e)).1 = 1
     /\ (Endpoint.GetSeqNoForConvo tag (Endpoint.PutCachedSessionKeyFor env tag k e)).1 = 1).
Proof.
  split.
  - intros n s Hs Hlo Hhi.
    rewrite (GetSeqNoForConvo_repeat_values n tag e s Hs Hlo Hhi).
    split; [done | apply seq_successors_increasing].
  - intros Hnone env info intro k. by apply GetSeqNoForConvo_after_Put.
Qed.

Lemma GetSeqNoForConvo_increasing_witness :
  (GetSeqNoForConvo_repeat 3 5 (Examples.endpoint_with_seqno 40)).1 = [41; 42; 43]
  /\ (Endpoint.GetSeqNoForConvo 7
        (Endpoint.PutSenderFor Examples.env0 7 Examples.bob Examples.empty_endpoint)).1 = 1.
Proof.
  split.
  - apply (proj1 (GetSeqNoForConvo_increasing 5 (Examples.endpoint_with_seqno 40))
             3%nat (Examples.session_with_seqno 40));
      [reflexivity | simpl; lia | vm_compute; discriminate].
  - apply (proj2 (GetSeqNoForConvo_increasing 7 Examples.empty_endpoint) eq_refl
             Examples.env0 Examples.bob Introduction.Clear 0).
Defined.

(** C9 as stated fails at the top of the range: the entry under tag 5 holds
    sequence number 2^64 - 2; the first call returns 2^64 - 1 and the next
    one wraps around and returns 0. *)
Lemma GetSeqNoForConvo_wraps :
  Endpoint.m_Sessions (Examples.endpoint_with_seqno (U64.max - 1)) !! 5
    = Some (Examples.session_with_seqno (U64.max - 1))
  /\ (GetSeqNoForConvo_repeat 2 5 (Examples.endpoint_with_seqno (U64.max - 1))).1
    = [U64.max; 0]
  /\ 0 < U64.max.
Proof. repeat split; reflexivity. Qed.

(** C10, as the code has it. For a tag without a session entry
    GetSeqNoForConvo returns 0 and leaves the endpoint, its session cache
    included, as it was: no entry is created. For a tag with an entry the
    call returns 0 only when the stored sequence number is 2^64 - 1. *)
Theorem GetSeqNoForConvo_zero (tag : ConvoTag) (e : Endpoint.t) :
  (Endpoint.m_Sessions e !! tag = None ->
     Endpoint.GetSeqNoForConvo tag e = (0, e)
     /\ Endpoint.m_Sessions (Endpoint.GetSeqNoForConvo tag e).2 !! tag = None)
  /\
  (forall s, Endpoint.m_Sessions e !! tag = Some s -> U64.in_range (Session.seqno s) ->
     ((Endpoint.GetSeqNoForConvo tag e).1 = 0 <-> Session.seqno s = U64.max)).
Proof.
  split.
  - intros Hnone. rewrite (GetSeqNoForConvo_no_entry tag e Hnone). done.
  - intros s Hs Hrange. rewrite (GetSeqNoForConvo_entry tag e s Hs). simpl.
    by apply U64_succ_zero_iff.
Qed.

Lemma GetSeqNoForConvo_zero_witness :
  Endpoint.GetSeqNoForConvo 5 Examples.empty_endpoint = (0, Examples.empty_endpoint)
  /\ ((Endpoint.GetSeqNoForConvo 5 (Examples.endpoint_with_seqno 41)).1 = 0 <-> 41 = U64.max).
Proof.
  split.
  - apply (proj1 (GetSeqNoForConvo_zero 5 Examples.empty_endpoint)). reflexivity.
  - apply (proj2 (GetSeqNoForConvo_zero 5 (Examples.endpoint_with_seqno 41))
             (Examples.session_with_seqno 41)); [reflexivity | vm_compute; split; congruence].
Defined.

(** C10 as stated fails at the top of the range: tag 5 has a session entry,
    with sequence number 2^64 - 1, and the call returns 0 for it. *)
Lemma GetSeqNoForConvo_zero_with_entry :
  Endpoint.m_Sessions (Examples.endpoint_with_seqno U64.max) !! 5
    = Some (Examples.session_with_seqno U64.max)
  /\ (Endpoint.GetSeqNoForConvo 5 (Examples.endpoint_with_seqno U64.max)).1 = 0.
Proof. split; reflexivity. Qed.

(** * Further properties of the code *)

(** ** GenTXID and PutLookup *)

Lemma U64_wrap_in_range (z : Z) : U64.in_range (U64.wrap z).
Proof. unfold U64.in_range, U64.wrap, U64.modulus. apply Z.mod_pos_bound. lia. Qed.

(** GenTXID returns a 64-bit value under which no lookup is pending,
    whatever the random generator answered. *)
Theorem GenTXID_not_pending (env : Endpoint.Env) (e : Endpoint.t) :
  U64.in_range (Endpoint.llarp_randint env) ->
  Z.of_nat (size (Endpoint.m_PendingLookups e)) < U64.modulus ->
  U64.in_range (Endpoint.GenTXID env e)
  /\ Endpoint.m_PendingLookups e !! Endpoint.GenTXID env e = None.
Proof.
  intros Hr Hsize. split; [|by apply GenTXID_fresh].
  unfold Endpoint.GenTXID.
  destruct (GenTXID_loop_visits (size (Endpoint.m_PendingLookups e))
              (Endpoint.llarp_randint env) e Hr) as (k & _ & -> & _).
  apply U64_wrap_in_range.
Qed.

(** The random value 2^64 - 1 is taken, and so is 0 after the wrap: the
    txid is 1. *)
Lemma GenTXID_not_pending_witness :
  U64.in_range (Endpoint.GenTXID Scenarios.env_top Scenarios.endpoint_top)
  /\ Endpoint.m_PendingLookups Scenarios.endpoint_top
       !! Endpoint.GenTXID Scenarios.env_top Scenarios.endpoint_top = None.
Proof.
  apply (GenTXID_not_pending Scenarios.env_top Scenarios.endpoint_top).
  - vm_compute. split; congruence.
  - vm_compute. reflexivity.
Defined.

Example GenTXID_wraps_to_free_txid :
  Endpoint.GenTXID Scenarios.env_top Scenarios.endpoint_top = 1.
Proof. reflexivity. Qed.

(** A lookup put under a txid from GenTXID is stored under it, next to
    every lookup that was pending, none of which is displaced. *)
Theorem PutLookup_GenTXID_registers (env : Endpoint.Env) (lookup : IServiceLookup.t)
    (e : Endpoint.t) :
  U64.in_range (Endpoint.llarp_randint env) ->
  Z.of_nat (size (Endpoint.m_PendingLookups e)) < U64.modulus ->
  Endpoint.m_PendingLookups (Endpoint.PutLookup lookup (Endpoint.GenTXID env e) e)
    = <[Endpoint.GenTXID env e := lookup]> (Endpoint.m_PendingLookups e)
  /\ Endpoint.m_PendingLookups (Endpoint.PutLookup lookup (Endpoint.GenTXID env e) e)
       !! Endpoint.GenTXID env e = Some lookup
  /\ (forall k l, Endpoint.m_PendingLookups e !! k = Some l ->
        Endpoint.m_PendingLookups (Endpoint.PutLookup lookup (Endpoint.GenTXID env e) e) !! k
        = Some l)
  /\ size (Endpoint.m_PendingLookups (Endpoint.PutLookup lookup (Endpoint.GenTXID env e) e))
     = S (size (Endpoint.m_PendingLookups e)).
Proof.
  intros Hr Hsize. pose proof (GenTXID_fresh env e Hr Hsize) as Hfree.
  unfold Endpoint.PutLookup. rewrite Hfree. simpl.
  split; [done|]. split; [apply lookup_insert_eq|]. split.
  - intros k l Hk. rewrite lookup_insert_ne; [done|]. intros <-. congruence.
  - by apply map_size_insert_None.
Qed.

Lemma PutLookup_GenTXID_registers_witness :
  Endpoint.m_PendingLookups
    (Endpoint.PutLookup Examples.lookup_fresh
       (Endpoint.GenTXID Scenarios.env_top Scenarios.endpoint_top) Scenarios.endpoint_top)
    !! Endpoint.GenTXID Scenarios.env_top Scenarios.endpoint_top
  = Some Examples.lookup_fresh.
Proof.
  assert (U64.in_range (Endpoint.llarp_randint Scenarios.env_top)) as Hr
    by (vm_compute; split; congruence).
  assert (Z.of_nat (size (Endpoint.m_PendingLookups Scenarios.endpoint_top)) < U64.modulus)
    as Hsize by (vm_compute; reflexivity).
  exact (proj1 (proj2 (PutLookup_GenTXID_registers Scenarios.env_top Examples.lookup_fresh
                         Scenarios.endpoint_top Hr Hsize))).
Defined.

(** PutLookup under a txid that is taken stores nothing: the pending lookup
    stays and the new one is dropped. *)
Lemma PutLookup_taken (lookup old : IServiceLookup.t) (txid : Z) (e : Endpoint.t) :
  Endpoint.m_PendingLookups e !! txid = Some old ->
  Endpoint.PutLookup lookup txid e = e.
Proof. intros Hold. unfold Endpoint.PutLookup. by rewrite Hold. Qed.

(** ** The session cache *)

Lemma session_lookup_after_Put (env : Endpoint.Env) (tag : ConvoTag) (e : Endpoint.t)
    (info : ServiceInfo.t) (intro : Introduction.t) (k : SharedSecret) :
  Endpoint.m_Sessions (Endpoint.PutSenderFor env tag info e) !! tag
    = Some (Session.set_lastUsed (Endpoint.llarp_time_now_ms env)
              (Session.set_remote info (Endpoint.find_or_insert_session tag e)))
  /\ Endpoint.m_Sessions (Endpoint.PutIntroFor env tag intro e) !! tag
    = Some (Session.set_lastUsed (Endpoint.llarp_time_now_ms env)
              (Session.set_intro intro (Endpoint.find_or_insert_session tag e)))
  /\ Endpoint.m_Sessions (Endpoint.PutCachedSessionKeyFor env tag k e) !! tag
    = Some (Session.set_lastUsed (Endpoint.llarp_time_now_ms env)
              (Session.set_sharedKey k (Endpoint.find_or_insert_session tag e))).
Proof.
  unfold Endpoint.PutSenderFor, Endpoint.PutIntroFor, Endpoint.PutCachedSessionKeyFor.
  simpl. by rewrite !lookup_insert_eq.
Qed.

(** What one of the Put functions has stored for a tag is what the matching
    Get function returns for it, whether or not the tag had a session. *)
Theorem session_Put_Get (env : Endpoint.Env) (tag : ConvoTag) (e : Endpoint.t)
    (info : ServiceInfo.t) (intro : Introduction.t) (k : SharedSecret) :
  Endpoint.GetSenderFor tag (Endpoint.PutSenderFor env tag info e) = Some info
  /\ Endpoint.GetIntroFor tag (Endpoint.PutIntroFor env tag intro e) = Some intro
  /\ Endpoint.GetCachedSessionKeyFor tag (Endpoint.PutCachedSessionKeyFor env tag k e)
     = Some k.
Proof.
  destruct (session_lookup_after_Put env tag e info intro k) as (H1 & H2 & H3).
  unfold Endpoint.GetSenderFor, Endpoint.GetIntroFor, Endpoint.GetCachedSessionKeyFor.
  by rewrite H1, H2, H3.
Qed.

(** On a tag that has a session each Put function changes its own field
    and lastUsed only: the sequence number and what the two other Get
    functions return stay; and no Put function touches the session of
    another tag. *)
Theorem session_Put_frame (env : Endpoint.Env) (tag : ConvoTag) (e : Endpoint.t)
    (s : Session.t) (info : ServiceInfo.t) (intro : Introduction.t) (k : SharedSecret) :
  Endpoint.m_Sessions e !! tag = Some s ->
  (Endpoint.GetIntroFor tag (Endpoint.PutSenderFor env tag info e) = Some (Session.intro s)
   /\ Endpoint.GetCachedSessionKeyFor tag (Endpoint.PutSenderFor env tag info e)
      = Some (Session.sharedKey s)
   /\ (Endpoint.GetSeqNoForConvo tag (Endpoint.PutSenderFor env tag info e)).1
      = (Endpoint.GetSeqNoForConvo tag e).1)
  /\
  (Endpoint.GetSenderFor tag (Endpoint.PutIntroFor env tag intro e) = Some (Session.remote s)
   /\ Endpoint.GetCachedSessionKeyFor tag (Endpoint.PutIntroFor env tag intro e)
      = Some (Session.sharedKey s)
   /\ (Endpoint.GetSeqNoForConvo tag (Endpoint.PutIntroFor env tag intro e)).1
      = (Endpoint.GetSeqNoForConvo tag e).1)
  /\
  (Endpoint.GetSenderFor tag (Endpoint.PutCachedSessionKeyFor env tag k e)
     = Some (Session.remote s)
   /\ Endpoint.GetIntroFor tag (Endpoint.PutCachedSessionKeyFor env tag k e)
      = Some (Session.intro s)
   /\ (Endpoint.GetSeqNoForConvo tag (Endpoint.PutCachedSessionKeyFor env tag k e)).1
      = (Endpoint.GetSeqNoForConvo tag e).1)
  /\
  (forall other, other <> tag ->
     Endpoint.m_Sessions (Endpoint.PutSenderFor env tag info e) !! other
       = Endpoint.m_Sessions e !! other
     /\ Endpoint.m_Sessions (Endpoint.PutIntroFor env tag intro e) !! other
       = Endpoint.m_Sessions e !! other
     /\ Endpoint.m_Sessions (Endpoint.PutCachedSessionKeyFor env tag k e) !! other
       = Endpoint.m_Sessions e !! other).
Proof.
  intros Hs.
  destruct (session_lookup_after_Put env tag e info intro k) as (H1 & H2 & H3).
  assert (Endpoint.find_or_insert_session tag e = s) as Hfind
    by (unfold Endpoint.find_or_insert_session; by rewrite Hs).
  rewrite Hfind in H1, H2, H3.
  unfold Endpoint.GetSenderFor, Endpoint.GetIntroFor, Endpoint.GetCachedSessionKeyFor.
  rewrite (GetSeqNoForConvo_entry _ _ _ H1), (GetSeqNoForConvo_entry _ _ _ H2),
    (GetSeqNoForConvo_entry _ _ _ H3), (GetSeqNoForConvo_entry _ _ _ Hs).
  rewrite H1, H2, H3. simpl. repeat split; try done.
  all: unfold Endpoint.PutSenderFor, Endpoint.PutIntroFor, Endpoint.PutCachedSessionKeyFor;
    simpl; by rewrite lookup_insert_ne.
Qed.

Lemma session_Put_frame_witness :
  Endpoint.GetIntroFor 5
    (Endpoint.PutSenderFor Examples.env0 5 Examples.alice (Examples.endpoint_with_seqno 41))
  = Some Introduction.Clear
  /\ (Endpoint.GetSeqNoForConvo 5
        (Endpoint.PutSenderFor Examples.env0 5 Examples.alice
           (Examples.endpoint_with_seqno 41))).1 = 42.
Proof.
  pose proof (session_Put_frame Examples.env0 5 (Examples.endpoint_with_seqno 41)
                (Examples.session_with_seqno 41) Examples.alice Introduction.Clear 0
                eq_refl) as ((Hintro & _ & Hseq) & _).
  split; [exact Hintro | exact Hseq].
Defined.

(** AsyncIntroGen::Result leaves under the tag of the handshake a session
    that holds the shared key, the reply introduction and the sender of the
    handshake; the sequence number of a session that was there is kept, a
    new session starts at 0, and other tags are untouched. *)
Theorem AsyncIntroGen_Result_session (env1 env2 env3 : Endpoint.Env) (tag : ConvoTag)
    (sharedKey : SharedSecret) (introReply : Introduction.t) (remote : ServiceInfo.t)
    (e : Endpoint.t) :
  Endpoint.m_Sessions
    (AsyncIntroGen.Result env1 env2 env3 tag sharedKey introReply remote e) !! tag
  = Some (Session.mk remote introReply sharedKey
            (Session.seqno (Endpoint.find_or_insert_session tag e))
            (Endpoint.llarp_time_now_ms env3))
  /\ (forall other, other <> tag ->
        Endpoint.m_Sessions
          (AsyncIntroGen.Result env1 env2 env3 tag sharedKey introReply remote e) !! other
        = Endpoint.m_Sessions e !! other).
Proof.
  unfold AsyncIntroGen.Result, Endpoint.PutSenderFor, Endpoint.PutIntroFor,
    Endpoint.PutCachedSessionKeyFor, Endpoint.find_or_insert_session.
  simpl. split.
  - by rewrite !lookup_insert_eq.
  - intros other Hne. by rewrite !lookup_insert_ne.
Qed.

(** ** GetConvoTagsForService *)

(** GetConvoTagsForService never returns true: the call returns only on
    an empty session cache, and what it returns then is false, with the
    set as it was passed in. *)
Theorem GetConvoTagsForService_only_false (fuel : nat) (info : ServiceInfo.t)
    (tags : gset Z) (e : Endpoint.t) (r : bool * gset Z) :
  Endpoint.GetConvoTagsForService fuel info tags e = Some r ->
  r = (false, tags) /\ Endpoint.m_Sessions e = ∅.
Proof.
  unfold Endpoint.GetConvoTagsForService.
  destruct (map_to_list (Endpoint.m_Sessions e)) as [|p rest] eqn:Hl.
  - apply map_to_list_empty_iff in Hl. destruct fuel; simpl; [done|].
    intros [= <-]. done.
  - by rewrite GetConvoTagsForService_loop_stuck.
Qed.

Lemma GetConvoTagsForService_only_false_witness :
  (false, ({[ 3 ]} : gset Z)) = (false, {[ 3 ]})
  /\ Endpoint.m_Sessions Examples.empty_endpoint = ∅.
Proof.
  apply (GetConvoTagsForService_only_false 1 Examples.bob {[ 3 ]} Examples.empty_endpoint
           (false, {[ 3 ]})).
  reflexivity.
Defined.

(** ** HandleGotIntroMessage: lookup responses *)

Lemma HandleGotIntroMessage_loop_returns (crypto : llarp_crypto) (env : Endpoint.Env)
    (T : Z) (l remote : list IntroSet.t) (e : Endpoint.t) (r : bool) (e' : Endpoint.t) :
  Endpoint.HandleGotIntroMessage_loop crypto env T l remote e = Endpoint.Return (r, e') ->
  e' = e \/ e' = Endpoint.IntroSetPublishFail e \/ e' = Endpoint.IntroSetPublished env e.
Proof.
  revert remote. induction l as [|s l IH]; intros remote; simpl; [done|].
  destruct (VerifySignature crypto s); simpl.
  - destruct (bool_decide _ && _); [intros [= _ <-]; auto | apply IH].
  - destruct (bool_decide _ && _); intros [= _ <-]; auto.
Qed.

Lemma HandleGotIntroMessage_loop_forged (crypto : llarp_crypto) (env : Endpoint.Env)
    (T : Z) (l remote : list IntroSet.t) (e : Endpoint.t) (s : IntroSet.t) :
  s ∈ l -> VerifySignature crypto s = false ->
  exists r, Endpoint.HandleGotIntroMessage_loop crypto env T l remote e = Endpoint.Return r.
Proof.
  intros Hin Hsig. revert remote.
  induction l as [|x l IH]; intros remote; [by apply elem_of_nil in Hin|].
  simpl. apply elem_of_cons in Hin as [<- | Hin].
  - rewrite Hsig. simpl. eauto.
  - destruct (VerifySignature crypto x); simpl; [|eauto].
    destruct (bool_decide _ && _); [eauto | by apply IH].
Qed.

Lemma HandleGotIntroMessage_loop_collects (crypto : llarp_crypto) (env : Endpoint.Env)
    (T : Z) (l remote : list IntroSet.t) (e : Endpoint.t) :
  Forall (fun s => VerifySignature crypto s = true
                   /\ ~ (Endpoint.m_Identity_pub e = IntroSet.A s
                         /\ Endpoint.m_CurrentPublishTX e = T)) l ->
  Endpoint.HandleGotIntroMessage_loop crypto env T l remote e
  = Endpoint.Continue (foldl (fun acc s => Endpoint.remote_insert s acc) remote l).
Proof.
  intros Hall. revert remote.
  induction Hall as [|s l [Hsig Hother] _ IH]; intros remote; simpl; [done|].
  rewrite Hsig. simpl.
  assert (bool_decide (Endpoint.m_Identity_pub e = IntroSet.A s)
          && (Endpoint.m_CurrentPublishTX e =? T) = false) as ->.
  { apply andb_false_iff. destruct (decide (Endpoint.m_Identity_pub e = IntroSet.A s)).
    - right. apply Z.eqb_neq. intros HT. by apply Hother.
    - left. by apply bool_decide_eq_false_2. }
  apply IH.
Qed.

Lemma remote_insert_fold_elem (l remote : list IntroSet.t) (x : IntroSet.t) :
  x ∈ foldl (fun acc s => Endpoint.remote_insert s acc) remote l <-> x ∈ remote \/ x ∈ l.
Proof.
  revert remote. induction l as [|s l IH]; intros remote; simpl.
  - rewrite elem_of_nil. tauto.
  - rewrite IH, elem_of_cons. unfold Endpoint.remote_insert. case_bool_decide as Hin.
    + split; [tauto|]. intros [?|[->|?]]; auto.
    + rewrite elem_of_app, list_elem_of_singleton. tauto.
Qed.

Lemma remote_insert_fold_NoDup (l remote : list IntroSet.t) :
  NoDup remote -> NoDup (foldl (fun acc s => Endpoint.remote_insert s acc) remote l).
Proof.
  revert remote. induction l as [|s l IH]; intros remote Hnd; simpl; [done|].
  apply IH. unfold Endpoint.remote_insert. case_bool_decide as Hin; [done|].
  apply NoDup_app. split; [done|]. split; [|apply NoDup_singleton].
  intros x Hx ->%list_elem_of_singleton. done.
Qed.

(** A message with an introset whose signature does not verify reaches no
    lookup handler: no HandleResponse is called and every pending lookup,
    the one of the message's txid included, stays pending. *)
Theorem HandleGotIntroMessage_forged_no_handler (crypto : llarp_crypto)
    (env : Endpoint.Env) (msg : Endpoint.GotIntroMessage.t) (e : Endpoint.t)
    (s : IntroSet.t) :
  s ∈ Endpoint.GotIntroMessage.I msg -> VerifySignature crypto s = false ->
  (Endpoint.HandleGotIntroMessage crypto env msg e).2 = []
  /\ Endpoint.m_PendingLookups (Endpoint.HandleGotIntroMessage crypto env msg e).1.2
     = Endpoint.m_PendingLookups e.
Proof.
  intros Hin Hsig. unfold Endpoint.HandleGotIntroMessage.
  destruct (HandleGotIntroMessage_loop_forged crypto env (Endpoint.GotIntroMessage.T msg)
              (Endpoint.GotIntroMessage.I msg) [] e s Hin Hsig) as [[r e'] Hret].
  rewrite Hret. simpl. split; [done|].
  apply HandleGotIntroMessage_loop_returns in Hret as [-> | [-> | ->]]; done.
Qed.

Lemma HandleGotIntroMessage_forged_no_handler_witness :
  (Endpoint.HandleGotIntroMessage Examples.crypto0 Examples.env0
     (Endpoint.GotIntroMessage.mk 3 [Examples.bob_signed; Examples.bob_forged])
     Examples.endpoint_with_lookups).2 = []
  /\ Endpoint.m_PendingLookups
       (Endpoint.HandleGotIntroMessage Examples.crypto0 Examples.env0
          (Endpoint.GotIntroMessage.mk 3 [Examples.bob_signed; Examples.bob_forged])
          Examples.endpoint_with_lookups).1.2
     = Endpoint.m_PendingLookups Examples.endpoint_with_lookups.
Proof.
  apply (HandleGotIntroMessage_forged_no_handler Examples.crypto0 Examples.env0
           (Endpoint.GotIntroMessage.mk 3 [Examples.bob_signed; Examples.bob_forged])
           Examples.endpoint_with_lookups Examples.bob_forged).
  - simpl. set_solver.
  - reflexivity.
Defined.

(** A message whose introsets all verify and that is no confirmation of
    the endpoint's own publish is a lookup response. With a lookup pending
    under its txid, that lookup is erased and its handler is called once,
    with introsets of the message only, each with a signature that
    verifies, none twice and the first one of the message among them; with
    none pending, the function still returns true and changes nothing. *)
Theorem HandleGotIntroMessage_delivers (crypto : llarp_crypto) (env : Endpoint.Env)
    (msg : Endpoint.GotIntroMessage.t) (e : Endpoint.t) :
  Forall (fun s => VerifySignature crypto s = true
                   /\ ~ (Endpoint.m_Identity_pub e = IntroSet.A s
                         /\ Endpoint.m_CurrentPublishTX e = Endpoint.GotIntroMessage.T msg))
         (Endpoint.GotIntroMessage.I msg) ->
  (forall lookup,
     Endpoint.m_PendingLookups e !! Endpoint.GotIntroMessage.T msg = Some lookup ->
     exists results,
       Endpoint.HandleGotIntroMessage crypto env msg e
       = (true,
          Endpoint.set_PendingLookups
            (delete (Endpoint.GotIntroMessage.T msg) (Endpoint.m_PendingLookups e)) e,
          [Endpoint.HandleResponse (Endpoint.GotIntroMessage.T msg) results])
       /\ NoDup results
       /\ (forall x, x ∈ results ->
             x ∈ Endpoint.GotIntroMessage.I msg /\ VerifySignature crypto x = true)
       /\ (forall x rest, Endpoint.GotIntroMessage.I msg = x :: rest -> x ∈ results))
  /\
  (Endpoint.m_PendingLookups e !! Endpoint.GotIntroMessage.T msg = None ->
     Endpoint.HandleGotIntroMessage crypto env msg e = (true, e, [])).
Proof.
  intros Hall. unfold Endpoint.HandleGotIntroMessage.
  rewrite (HandleGotIntroMessage_loop_collects crypto env _ _ [] e Hall).
  split.
  - intros lookup Hl. rewrite Hl. eexists. split; [reflexivity|]. split.
    + apply remote_insert_fold_NoDup. constructor.
    + split.
      * intros x [Hx | Hx]%remote_insert_fold_elem; [by apply elem_of_nil in Hx|].
        split; [done|]. rewrite Forall_forall in Hall. by apply Hall.
      * intros x rest HI. apply remote_insert_fold_elem. right. rewrite HI.
        apply list_elem_of_here.
  - intros Hnone. by rewrite Hnone.
Qed.

Lemma HandleGotIntroMessage_delivers_witness :
  Endpoint.HandleGotIntroMessage Examples.crypto0 Examples.env0
    (Endpoint.GotIntroMessage.mk 9 [Examples.bob_signed; Examples.bob_signed])
    Examples.endpoint_with_lookups
  = (true, Examples.endpoint_with_lookups, []).
Proof.
  apply (HandleGotIntroMessage_delivers Examples.crypto0 Examples.env0
           (Endpoint.GotIntroMessage.mk 9 [Examples.bob_signed; Examples.bob_signed])
           Examples.endpoint_with_lookups).
  - repeat constructor; intros [Heq _]; discriminate Heq.
  - reflexivity.
Defined.

Example HandleGotIntroMessage_delivers_once :
  Endpoint.HandleGotIntroMessage Examples.crypto0 Examples.env0
    (Endpoint.GotIntroMessage.mk 3 [Examples.bob_signed; Examples.bob_signed])
    Examples.endpoint_with_lookups
  = (true,
     Endpoint.set_PendingLookups {[ 4 := Examples.lookup_fresh ]} Examples.endpoint_with_lookups,
     [Endpoint.HandleResponse 3 [Examples.bob_signed]]).
Proof. reflexivity. Qed.

(** When HandleGotIntroMessage calls no lookup handler, the only members
    it can have written are m_CurrentPublishTX and m_LastPublish: the
    session cache, the remote sessions, the pending service lookups, the
    pending lookups, the introset and the time of the last publish attempt
    are as before. The only handler it ever calls is the one of the lookup
    pending under the message's txid, once and with nothing else called,
    and it then returns true. *)
Theorem HandleGotIntroMessage_frame (crypto : llarp_crypto) (env : Endpoint.Env)
    (msg : Endpoint.GotIntroMessage.t) (e : Endpoint.t) :
  ((Endpoint.HandleGotIntroMessage crypto env msg e).2 = [] ->
     Endpoint.m_Sessions (Endpoint.HandleGotIntroMessage crypto env msg e).1.2
       = Endpoint.m_Sessions e
     /\ Endpoint.m_RemoteSessions (Endpoint.HandleGotIntroMessage crypto env msg e).1.2
       = Endpoint.m_RemoteSessions e
     /\ Endpoint.m_PendingServiceLookups (Endpoint.HandleGotIntroMessage crypto env msg e).1.2
       = Endpoint.m_PendingServiceLookups e
     /\ Endpoint.m_PendingLookups (Endpoint.HandleGotIntroMessage crypto env msg e).1.2
       = Endpoint.m_PendingLookups e
     /\ Endpoint.m_IntroSet (Endpoint.HandleGotIntroMessage crypto env msg e).1.2
       = Endpoint.m_IntroSet e
     /\ Endpoint.m_LastPublishAttempt (Endpoint.HandleGotIntroMessage crypto env msg e).1.2
       = Endpoint.m_LastPublishAttempt e)
  /\
  (forall k results,
     Endpoint.HandleResponse k results ∈ (Endpoint.HandleGotIntroMessage crypto env msg e).2 ->
     k = Endpoint.GotIntroMessage.T msg
     /\ (Endpoint.HandleGotIntroMessage crypto env msg e).2
        = [Endpoint.HandleResponse (Endpoint.GotIntroMessage.T msg) results]
     /\ is_Some (Endpoint.m_PendingLookups e !! Endpoint.GotIntroMessage.T msg)
     /\ (Endpoint.HandleGotIntroMessage crypto env msg e).1.1 = true).
Proof.
  unfold Endpoint.HandleGotIntroMessage.
  destruct (Endpoint.HandleGotIntroMessage_loop crypto env (Endpoint.GotIntroMessage.T msg)
              (Endpoint.GotIntroMessage.I msg) [] e) as [[r e']|remote] eqn:Hloop.
  - split.
    + intros _.
      apply HandleGotIntroMessage_loop_returns in Hloop as [-> | [-> | ->]]; done.
    + intros k results Hin. simpl in Hin. by apply elem_of_nil in Hin.
  - destruct (Endpoint.m_PendingLookups e !! Endpoint.GotIntroMessage.T msg) as [lookup|];
      simpl; (split; [done|]).
    + intros k results [= -> ->]%list_elem_of_singleton. eauto.
    + intros k results Hin. by apply elem_of_nil in Hin.
Qed.

(** ** Tick: the publish of the introset *)

Lemma Tick_expire_loop_events (now : llarp_time_t) (itr : list (Z * IServiceLookup.t))
    (pending : gmap Z IServiceLookup.t) (evs : list Endpoint.Event) :
  Forall (fun ev => exists k, ev = Endpoint.HandleResponse k []) evs ->
  Forall (fun ev => exists k, ev = Endpoint.HandleResponse k [])
         (Endpoint.Tick_expire_loop now itr pending evs).2.
Proof.
  revert pending evs. induction itr as [|[key lookup] rest IH]; intros pending evs Hevs.
  - done.
  - simpl. destruct (IServiceLookup.IsTimedOut lookup now); [|by apply IH].
    apply IH. apply Forall_app. split; [done|]. constructor; [eauto | constructor].
Qed.

Lemma Tick_expire_pending_tx_shape (now : llarp_time_t) (e : Endpoint.t) :
  (exists pending,
     (Endpoint.Tick_expire_pending_tx now e).1 = Endpoint.set_PendingLookups pending e)
  /\ Forall (fun ev => exists k, ev = Endpoint.HandleResponse k [])
            (Endpoint.Tick_expire_pending_tx now e).2.
Proof.
  unfold Endpoint.Tick_expire_pending_tx.
  pose proof (Tick_expire_loop_events now (map_to_list (Endpoint.m_PendingLookups e))
                (Endpoint.m_PendingLookups e) [] (Forall_nil_2 _)) as Hevs.
  destruct (Endpoint.Tick_expire_loop _ _ _ _) as [pending evs]. simpl in *.
  split; [by exists pending | done].
Qed.

(** While a publish is in flight and the retry interval since the last
    attempt has not passed, Tick sends no publish and leaves the publish
    state and the introset as they are. *)
Theorem Tick_publish_in_flight `{Intervals} (crypto : llarp_crypto) (env : Endpoint.Env)
    (now : llarp_time_t) (e : Endpoint.t) :
  Endpoint.m_CurrentPublishTX e <> 0 ->
  U64.sub now (Endpoint.m_LastPublishAttempt e) < INTROSET_PUBLISH_RETRY_INTERVAL ->
  (forall introset tx via,
     Endpoint.SendPublishIntro introset tx via ∉ (Endpoint.Tick crypto env now e).2)
  /\ Endpoint.m_CurrentPublishTX (Endpoint.Tick crypto env now e).1
     = Endpoint.m_CurrentPublishTX e
  /\ Endpoint.m_LastPublish (Endpoint.Tick crypto env now e).1 = Endpoint.m_LastPublish e
  /\ Endpoint.m_LastPublishAttempt (Endpoint.Tick crypto env now e).1
     = Endpoint.m_LastPublishAttempt e
  /\ Endpoint.m_IntroSet (Endpoint.Tick crypto env now e).1 = Endpoint.m_IntroSet e.
Proof.
  intros Htx Hearly. unfold Endpoint.Tick, Endpoint.Tick_reset_publish_tx.
  assert ((INTROSET_PUBLISH_RETRY_INTERVAL <=? U64.sub now (Endpoint.m_LastPublishAttempt e))
          = false) as -> by (apply Z.leb_gt; lia).
  unfold Endpoint.Tick_publish_descriptors.
  assert (Endpoint.ShouldPublishDescriptors now e = false) as ->.
  { unfold Endpoint.ShouldPublishDescriptors.
    apply Z.eqb_neq in Htx. rewrite Htx. by destruct (IntroSet.HasExpiredIntros _ _). }
  destruct (Tick_expire_pending_tx_shape now e) as [[pending Hshape] Hevs].
  destruct (Endpoint.Tick_expire_pending_tx now e) as [e2 evs2]. simpl in *. subst e2.
  split; [|done].
  intros introset tx via Hin. rewrite Forall_forall in Hevs.
  destruct (Hevs _ Hin) as [k Hk]. discriminate Hk.
Qed.

Lemma Tick_publish_in_flight_witness :
  Endpoint.m_CurrentPublishTX
    (Endpoint.Tick (H := Examples.intervals) Examples.crypto0 Scenarios.env_path 5000
       Examples.publishing_endpoint).1 = 42.
Proof.
  apply (Tick_publish_in_flight (H := Examples.intervals) Examples.crypto0 Scenarios.env_path
           5000 Examples.publishing_endpoint).
  - discriminate.
  - reflexivity.
Defined.

Lemma publish_calls_of_expiry (evs : list Endpoint.Event) :
  Forall (fun ev => exists k, ev = Endpoint.HandleResponse k []) evs ->
  publish_calls evs = [].
Proof.
  induction 1 as [|ev evs [k ->] _ IH]; [done|]. simpl. exact IH.
Qed.

(** The publish from Tick to its confirmation. When a publish is due, the
    path set offers introductions, the introset is signed and the message
    is sent, then after Tick the endpoint holds the signed introset, the
    random txid of the publish and the time of the attempt, and exactly
    one PublishIntroMessage, with that introset and txid, has been sent. If
    the
    signed introset verifies and names the endpoint, the GotIntroMessage
    that echoes it under that txid is taken as the confirmation: it clears
    the txid and records the time of the publish. *)
Theorem Tick_publish_then_confirm `{Intervals} (crypto : llarp_crypto)
    (env env' : Endpoint.Env) (now : llarp_time_t) (e : Endpoint.t)
    (signed : IntroSet.t) (path : Path) :
  Endpoint.ShouldPublishDescriptors now (Endpoint.Tick_reset_publish_tx now e) = true ->
  Endpoint.established_intros env <> [] ->
  SignIntroSet crypto (Endpoint.m_Identity_pub e)
    (IntroSet.set_topic (Endpoint.m_Tag e)
       (IntroSet.set_I (Endpoint.established_intros env) (Endpoint.m_IntroSet e)))
    = Some signed ->
  Endpoint.GetEstablishedPathClosestTo env (Endpoint.Addr env (Endpoint.m_Identity_pub e))
    = Some path ->
  Endpoint.SendRoutingMessage env path = true ->
  VerifySignature crypto signed = true ->
  IntroSet.A signed = Endpoint.m_Identity_pub e ->
  (Endpoint.m_IntroSet (Endpoint.Tick crypto env now e).1 = signed
   /\ Endpoint.m_CurrentPublishTX (Endpoint.Tick crypto env now e).1
      = Endpoint.llarp_randint env
   /\ Endpoint.m_LastPublishAttempt (Endpoint.Tick crypto env now e).1
      = Endpoint.llarp_time_now_ms env
   /\ Endpoint.SendPublishIntro signed (Endpoint.llarp_randint env) path
      ∈ (Endpoint.Tick crypto env now e).2
   /\ publish_calls (Endpoint.Tick crypto env now e).2
      = [(signed, Endpoint.llarp_randint env, path)])
  /\
  (Endpoint.HandleGotIntroMessage crypto env'
     (Endpoint.GotIntroMessage.mk (Endpoint.llarp_randint env) [signed])
     (Endpoint.Tick crypto env now e).1
   = (true, Endpoint.IntroSetPublished env' (Endpoint.Tick crypto env now e).1, [])
   /\ Endpoint.m_CurrentPublishTX
        (Endpoint.IntroSetPublished env' (Endpoint.Tick crypto env now e).1) = 0
   /\ Endpoint.m_LastPublish
        (Endpoint.IntroSetPublished env' (Endpoint.Tick crypto env now e).1)
      = Endpoint.llarp_time_now_ms env').
Proof.
  intros Hdue Hintros Hsign Hpath Hsend Hverify HA.
  set (e0 := Endpoint.Tick_reset_publish_tx now e) in *.
  assert (Endpoint.m_Identity_pub e0 = Endpoint.m_Identity_pub e
          /\ Endpoint.m_IntroSet e0 = Endpoint.m_IntroSet e
          /\ Endpoint.m_Tag e0 = Endpoint.m_Tag e) as (Hpub & Hset & Htag).
  { unfold e0, Endpoint.Tick_reset_publish_tx. by case_match. }
  assert (exists e1 evs,
            Endpoint.Tick crypto env now e = (e1, evs)
            /\ Endpoint.m_IntroSet e1 = signed
            /\ Endpoint.m_CurrentPublishTX e1 = Endpoint.llarp_randint env
            /\ Endpoint.m_LastPublishAttempt e1 = Endpoint.llarp_time_now_ms env
            /\ Endpoint.m_Identity_pub e1 = Endpoint.m_Identity_pub e
            /\ Endpoint.SendPublishIntro signed (Endpoint.llarp_randint env) path ∈ evs
            /\ publish_calls evs = [(signed, Endpoint.llarp_randint env, path)])
    as (e1 & evs & HTick & H1 & H2 & H3 & H4 & H5 & H6).
  { unfold Endpoint.Tick. fold e0.
    unfold Endpoint.Tick_publish_descriptors, Endpoint.GetCurrentIntroductions.
    rewrite Hdue, bool_decide_eq_false_2 by done. simpl.
    rewrite Hpub, Hset, Htag, Hsign.
    unfold Endpoint.PublishIntroSet. simpl. rewrite Hpub, Hpath, Hsend.
    match goal with
    | |- context [Endpoint.Tick_expire_pending_tx now ?st] =>
        destruct (Tick_expire_pending_tx_shape now st) as [[pending Hshape] Hevs];
        destruct (Endpoint.Tick_expire_pending_tx now st) as [e2 evs2]
    end.
    simpl in Hshape, Hevs. subst e2. eexists _, _. split; [reflexivity|].
    simpl. repeat split; try done; [apply list_elem_of_here|].
    f_equal. by apply publish_calls_of_expiry. }
  rewrite HTick. simpl. split; [done|].
  unfold Endpoint.HandleGotIntroMessage. simpl.
  rewrite Hverify, H2, H4, Z.eqb_refl. simpl.
  rewrite bool_decide_eq_true_2 by done. simpl. done.
Qed.

Lemma Tick_publish_then_confirm_witness :
  Endpoint.HandleGotIntroMessage Examples.crypto0 Examples.env0
    (Endpoint.GotIntroMessage.mk 42 [Scenarios.alice_published])
    (Endpoint.Tick (H := Examples.intervals) Examples.crypto0 Scenarios.env_path 2000000
       Examples.empty_endpoint).1
  = (true,
     Endpoint.IntroSetPublished Examples.env0
       (Endpoint.Tick (H := Examples.intervals) Examples.crypto0 Scenarios.env_path 2000000
          Examples.empty_endpoint).1,
     []).
Proof.
  apply (Tick_publish_then_confirm (H := Examples.intervals) Examples.crypto0
           Scenarios.env_path Examples.env0 2000000 Examples.empty_endpoint
           Scenarios.alice_published 9); try reflexivity.
  discriminate.
Defined.

(** ** EnsurePathToService and the outbound lookup *)

(** A first EnsurePathToService for a remote that has neither a session nor
    a pending lookup registers the hook without calling it and returns
    whether the request went out. From then on, as long as no session
    exists, every call for that remote returns false, registers nothing
    and calls no hook; this holds also when the first request could not be
    sent. *)
Theorem EnsurePathToService_then_duplicate (env : Endpoint.Env) (remote : Address)
    (hook : PathEnsureHook) (timeoutMS : llarp_time_t) (e : Endpoint.t) (path : Path) :
  Endpoint.GetEstablishedPathClosestTo env remote = Some path ->
  Endpoint.m_RemoteSessions e !! remote = None ->
  Endpoint.m_PendingServiceLookups e !! remote = None ->
  (Endpoint.EnsurePathToService env remote hook timeoutMS e).1.1
    = Endpoint.SendRoutingMessage env path
  /\ Endpoint.m_PendingServiceLookups
       (Endpoint.EnsurePathToService env remote hook timeoutMS e).1.2 !! remote = Some hook
  /\ Endpoint.hooks_called (Endpoint.EnsurePathToService env remote hook timeoutMS e).2 = []
  /\ (forall (env2 : Endpoint.Env) (hook2 : PathEnsureHook) (timeout2 : llarp_time_t),
        Endpoint.EnsurePathToService env2 remote hook2 timeout2
          (Endpoint.EnsurePathToService env remote hook timeoutMS e).1.2
        = (false, (Endpoint.EnsurePathToService env remote hook timeoutMS e).1.2, [])).
Proof.
  intros Hpath Hsession Hpending. unfold Endpoint.EnsurePathToService at 1 2 3 5 6.
  rewrite Hpath, Hsession, Hpending. simpl.
  split; [done|]. split; [apply lookup_insert_eq|]. split; [done|].
  intros env2 hook2 timeout2. unfold Endpoint.EnsurePathToService. simpl.
  rewrite Hsession, lookup_insert_eq.
  by destruct (Endpoint.GetEstablishedPathClosestTo env2 remote).
Qed.

Lemma EnsurePathToService_then_duplicate_witness :
  Endpoint.EnsurePathToService Scenarios.env_path Scenarios.bob_addr 2 10000
    (Endpoint.EnsurePathToService Scenarios.env_no_path Scenarios.bob_addr 1 10000
       (Endpoint.EnsurePathToService Scenarios.env_path Scenarios.bob_addr 1 10000
          Examples.empty_endpoint).1.2).1.2
  = (false,
     (Endpoint.EnsurePathToService Scenarios.env_path Scenarios.bob_addr 1 10000
        Examples.empty_endpoint).1.2, []).
Proof.
  pose proof (EnsurePathToService_then_duplicate Scenarios.env_path Scenarios.bob_addr 1
                10000 Examples.empty_endpoint 9 eq_refl eq_refl eq_refl) as (_ & _ & _ & Hdup).
  rewrite (Hdup Scenarios.env_no_path 1 10000). simpl. apply Hdup.
Defined.

Lemma hook_calls_of_context (addr : Address) (cevs : list OutboundContext.Event) :
  Outbound.hook_calls (Outbound.OfContext addr <$> cevs) = [].
Proof. induction cevs as [|ev cevs IH]; [done | by simpl]. Qed.

Lemma hook_calls_app (evs1 evs2 : list Outbound.Event) :
  Outbound.hook_calls (evs1 ++ evs2) = Outbound.hook_calls evs1 ++ Outbound.hook_calls evs2.
Proof. apply omap_app. Qed.

Lemma PutNewOutboundContext_effect (env : Endpoint.Env) (introset : IntroSet.t)
    (e : Endpoint.t) :
  Endpoint.m_RemoteSessions (Outbound.PutNewOutboundContext env introset e).1
    !! Endpoint.Addr env (IntroSet.A introset)
  = Some (default (OutboundContext.new introset).1
            (Endpoint.m_RemoteSessions e !! Endpoint.Addr env (IntroSet.A introset)))
  /\ Endpoint.m_PendingServiceLookups (Outbound.PutNewOutboundContext env introset e).1
       !! Endpoint.Addr env (IntroSet.A introset) = None
  /\ Outbound.hook_calls (Outbound.PutNewOutboundContext env introset e).2
     = match Endpoint.m_PendingServiceLookups e !! Endpoint.Addr env (IntroSet.A introset) with
       | Some h => [(h, Endpoint.Addr env (IntroSet.A introset))]
       | None => []
       end
  /\ (forall other, other <> Endpoint.Addr env (IntroSet.A introset) ->
        Endpoint.m_RemoteSessions (Outbound.PutNewOutboundContext env introset e).1 !! other
          = Endpoint.m_RemoteSessions e !! other
        /\ Endpoint.m_PendingServiceLookups
             (Outbound.PutNewOutboundContext env introset e).1 !! other
          = Endpoint.m_PendingServiceLookups e !! other).
Proof.
  unfold Outbound.PutNewOutboundContext.
  set (addr := Endpoint.Addr env (IntroSet.A introset)).
  destruct (OutboundContext.new introset) as [ctx cevs].
  destruct (Endpoint.m_RemoteSessions e !! addr) as [old|] eqn:Hold;
    destruct (Endpoint.m_PendingServiceLookups e !! addr) as [h|] eqn:Hh; simpl;
    rewrite ?Hh, ?Hold; simpl;
    rewrite ?hook_calls_app, ?hook_calls_of_context, ?lookup_delete_eq, ?lookup_insert_eq;
    repeat split; try done;
    rewrite ?lookup_delete_ne, ?lookup_insert_ne by done; done.
Qed.

(** PutNewOutboundContext leaves a session under the address of the
    introset: the one that was there, untouched, or else a new context
    built from the introset. The hook that was pending for that address
    is called once and removed; without one no hook is called. Sessions
    and hooks of other addresses are untouched. *)
Theorem PutNewOutboundContext_resolves (env : Endpoint.Env) (introset : IntroSet.t)
    (e : Endpoint.t) :
  Endpoint.m_RemoteSessions (Outbound.PutNewOutboundContext env introset e).1
    !! Endpoint.Addr env (IntroSet.A introset)
  = Some (default (OutboundContext.new introset).1
            (Endpoint.m_RemoteSessions e !! Endpoint.Addr env (IntroSet.A introset)))
  /\ Endpoint.m_PendingServiceLookups (Outbound.PutNewOutboundContext env introset e).1
       !! Endpoint.Addr env (IntroSet.A introset) = None
  /\ Outbound.hook_calls (Outbound.PutNewOutboundContext env introset e).2
     = match Endpoint.m_PendingServiceLookups e !! Endpoint.Addr env (IntroSet.A introset) with
       | Some h => [(h, Endpoint.Addr env (IntroSet.A introset))]
       | None => []
       end
  /\ (forall other, other <> Endpoint.Addr env (IntroSet.A introset) ->
        Endpoint.m_RemoteSessions (Outbound.PutNewOutboundContext env introset e).1 !! other
          = Endpoint.m_RemoteSessions e !! other
        /\ Endpoint.m_PendingServiceLookups
             (Outbound.PutNewOutboundContext env introset e).1 !! other
          = Endpoint.m_PendingServiceLookups e !! other).
Proof. apply PutNewOutboundContext_effect. Qed.

(** A lookup that ends without exactly one result, because it timed out
    or because several introsets came back, is reported to OnOutboundLookup
    as a null pointer: nothing changes, no hook is called, and the hook
    that waits for the remote stays registered, so that a further
    EnsurePathToService for the remote is still turned down. *)
Theorem Outbound_lookup_without_result (env : Endpoint.Env) (results : list IntroSet.t)
    (remote : Address) (hook : PathEnsureHook) (e : Endpoint.t) :
  length results <> 1%nat ->
  Endpoint.m_RemoteSessions e !! remote = None ->
  Endpoint.m_PendingServiceLookups e !! remote = Some hook ->
  Outbound.HandleResponse env results e = (false, (e, []))
  /\ (forall (env2 : Endpoint.Env) (hook2 : PathEnsureHook) (timeout2 : llarp_time_t),
        Endpoint.EnsurePathToService env2 remote hook2 timeout2
          (Outbound.HandleResponse env results e).2.1
        = (false, e, [])).
Proof.
  intros Hlen Hsession Hhook.
  assert (Outbound.HandleResponse env results e = (false, (e, []))) as Hsame.
  { unfold Outbound.HandleResponse. destruct results as [|r [|r2 rest]]; simpl in *; done. }
  split; [done|]. intros env2 hook2 timeout2. rewrite Hsame. simpl.
  unfold Endpoint.EnsurePathToService. rewrite Hsession, Hhook.
  by destruct (Endpoint.GetEstablishedPathClosestTo env2 remote).
Qed.

Lemma Outbound_lookup_without_result_witness :
  Outbound.HandleResponse Scenarios.env_path [] Examples.endpoint_pending_8
  = (false, (Examples.endpoint_pending_8, [])).
Proof.
  apply (Outbound_lookup_without_result Scenarios.env_path [] 8 1
           Examples.endpoint_pending_8); [simpl; lia | reflexivity | reflexivity].
Defined.

(** From the request to the session. After EnsurePathToService has
    registered the hook for a remote, the response with one introset of
    that remote's address creates the session, calls the hook once with it
    and clears the pending entry; a later EnsurePathToService for the
    remote calls its hook at once and returns true. *)
Theorem EnsurePathToService_resolved (env : Endpoint.Env) (remote : Address)
    (hook : PathEnsureHook) (timeoutMS : llarp_time_t) (e : Endpoint.t) (path : Path)
    (introset : IntroSet.t) :
  Endpoint.GetEstablishedPathClosestTo env remote = Some path ->
  Endpoint.m_RemoteSessions e !! remote = None ->
  Endpoint.m_PendingServiceLookups e !! remote = None ->
  Endpoint.Addr env (IntroSet.A introset) = remote ->
  Outbound.hook_calls
    (Outbound.HandleResponse env [introset]
       (Endpoint.EnsurePathToService env remote hook timeoutMS e).1.2).2.2
  = [(hook, remote)]
  /\ Endpoint.m_RemoteSessions
       (Outbound.HandleResponse env [introset]
          (Endpoint.EnsurePathToService env remote hook timeoutMS e).1.2).2.1 !! remote
     = Some (OutboundContext.new introset).1
  /\ Endpoint.m_PendingServiceLookups
       (Outbound.HandleResponse env [introset]
          (Endpoint.EnsurePathToService env remote hook timeoutMS e).1.2).2.1 !! remote
     = None
  /\ (forall (hook2 : PathEnsureHook) (timeout2 : llarp_time_t),
        Endpoint.EnsurePathToService env remote hook2 timeout2
          (Outbound.HandleResponse env [introset]
             (Endpoint.EnsurePathToService env remote hook timeoutMS e).1.2).2.1
        = (true,
           (Outbound.HandleResponse env [introset]
              (Endpoint.EnsurePathToService env remote hook timeoutMS e).1.2).2.1,
           [Endpoint.HookCall hook2 remote])).
Proof.
  intros Hpath Hsession Hpending Haddr.
  set (e1 := Endpoint.set_PendingServiceLookups
               (<[remote := hook]> (Endpoint.m_PendingServiceLookups e)) e).
  assert ((Endpoint.EnsurePathToService env remote hook timeoutMS e).1.2 = e1) as ->.
  { unfold Endpoint.EnsurePathToService. by rewrite Hpath, Hsession, Hpending. }
  destruct (PutNewOutboundContext_effect env introset e1) as (Hs & Hp & Hh & _).
  rewrite Haddr in Hs, Hp, Hh.
  unfold Outbound.HandleResponse. simpl.
  assert (Endpoint.m_RemoteSessions e1 !! remote = None) as Hs1 by done.
  assert (Endpoint.m_PendingServiceLookups e1 !! remote = Some hook) as Hp1
    by apply lookup_insert_eq.
  rewrite Hs1 in Hs. rewrite Hp1 in Hh. simpl in Hs.
  split; [done|]. split; [done|]. split; [done|].
  intros hook2 timeout2. unfold Endpoint.EnsurePathToService.
  by rewrite Hpath, Hs.
Qed.

Lemma EnsurePathToService_resolved_witness :
  Outbound.hook_calls
    (Outbound.HandleResponse Scenarios.env_path [Examples.bob_first]
       (Endpoint.EnsurePathToService Scenarios.env_path Scenarios.bob_addr 1 10000
          Examples.empty_endpoint).1.2).2.2
  = [(1, Scenarios.bob_addr)].
Proof.
  apply (EnsurePathToService_resolved Scenarios.env_path Scenarios.bob_addr 1 10000
           Examples.empty_endpoint 9 Examples.bob_first); reflexivity.
Defined.

(** ** ShiftIntroduction and Send *)

Lemma ShiftIntroduction_loop_settled (l : list Introduction.t) (sel : Introduction.t)
    (evs : list OutboundContext.Event) :
  (forall i, i ∈ l -> Introduction.expiresAt i <= Introduction.expiresAt sel) ->
  (OutboundContext.ShiftIntroduction_loop l sel evs).1 = sel.
Proof.
  revert evs. induction l as [|j l IH]; intros evs Hall; simpl; [done|].
  assert ((Introduction.expiresAt sel <? Introduction.expiresAt j) = false) as ->.
  { apply Z.ltb_ge. apply Hall, list_elem_of_here. }
  apply IH. intros i Hi. by apply Hall, list_elem_of_further.
Qed.

Lemma ShiftIntroduction_loop_events (l : list Introduction.t) (sel : Introduction.t)
    (evs : list OutboundContext.Event) :
  length (OutboundContext.ShiftIntroduction_loop l sel evs).2 = (length evs + length l)%nat.
Proof.
  revert sel evs. induction l as [|j l IH]; intros sel evs; simpl; [lia|].
  rewrite IH, length_app. simpl. lia.
Qed.

Lemma ShiftIntroduction_events (c : OutboundContext.t) :
  length (OutboundContext.ShiftIntroduction c).2
    = S (length (IntroSet.I (OutboundContext.currentIntroSet c)))
  /\ last (OutboundContext.ShiftIntroduction c).2 = Some (OutboundContext.ManualRebuild 2).
Proof.
  unfold OutboundContext.ShiftIntroduction.
  pose proof (ShiftIntroduction_loop_events (IntroSet.I (OutboundContext.currentIntroSet c))
                (OutboundContext.selectedIntro c) []) as Hlen.
  destruct (OutboundContext.ShiftIntroduction_loop _ _ _) as [sel evs]. simpl in *.
  split; [rewrite length_app; simpl; lia | apply last_snoc].
Qed.



(** A second ShiftIntroduction right after the first selects nothing new:
    the context is the same after both. *)
Theorem ShiftIntroduction_idempotent (c : OutboundContext.t) :
  (OutboundContext.ShiftIntroduction (OutboundContext.ShiftIntroduction c).1).1
  = (OutboundContext.ShiftIntroduction c).1.
Proof.
  destruct (ShiftIntroduction_fields c) as [Hcur Hsel].
  destruct (ShiftIntroduction_fields (OutboundContext.ShiftIntroduction c).1)
    as [Hcur2 Hsel2].
  destruct (ShiftIntroduction_loop_latest (IntroSet.I (OutboundContext.currentIntroSet c))
              (OutboundContext.selectedIntro c) []) as [_ Hall].
  rewrite <- Hsel in Hall.
  rewrite Hcur, ShiftIntroduction_loop_settled in Hsel2 by done.
  destruct (OutboundContext.ShiftIntroduction (OutboundContext.ShiftIntroduction c).1).1
    as [cur2 sel2].
  destruct (OutboundContext.ShiftIntroduction c).1 as [cur1 sel1].
  simpl in *. congruence.
Qed.

Lemma Send_shift_due_almost_always (now : llarp_time_t) (c : OutboundContext.t) :
  U64.in_range now ->
  U64.in_range (Introduction.expiresAt (OutboundContext.selectedIntro c)) ->
  Introduction.expiresAt (OutboundContext.selectedIntro c) - now < U64.modulus - 1000 ->
  Outbound.Send_shift_due now c = true.
Proof.
  intros Hnow Hexp Hnear. unfold Outbound.Send_shift_due.
  destruct (decide (Introduction.expiresAt (OutboundContext.selectedIntro c) <= now))
    as [Hle | Hgt].
  - apply orb_true_iff. left. by apply Z.leb_le.
  - apply orb_true_iff. right. apply Z.ltb_lt.
    rewrite U64_sub_wrap by (done || lia). lia.
Qed.

(** Send re-selects the introduction on practically every call: whenever
    the selected introduction has expired, and also whenever it expires
    less than 2^64 - 1000 ms after now, ShiftIntroduction runs, with its
    request to rebuild two paths, and the frame goes out with the path id
    of the introduction selected by it. *)
Theorem Send_always_shifts (now : llarp_time_t) (closest : option Path)
    (GetPathByRouter : RouterID -> option Path) (c : OutboundContext.t) :
  U64.in_range now ->
  U64.in_range (Introduction.expiresAt (OutboundContext.selectedIntro c)) ->
  Introduction.expiresAt (OutboundContext.selectedIntro c) - now < U64.modulus - 1000 ->
  (Outbound.Send now closest GetPathByRouter c).1 = (OutboundContext.ShiftIntroduction c).1
  /\ Outbound.Call (OutboundContext.ManualRebuild 2)
     ∈ (Outbound.Send now closest GetPathByRouter c).2
  /\ (forall path,
        GetPathByRouter
          (Introduction.router
             (OutboundContext.selectedIntro (OutboundContext.ShiftIntroduction c).1))
        = Some path ->
        last (Outbound.Send now closest GetPathByRouter c).2
        = Some (Outbound.Transfer
                  (Introduction.pathID
                     (OutboundContext.selectedIntro (OutboundContext.ShiftIntroduction c).1))
                  path)).
Proof.
  intros Hnow Hexp Hnear. unfold Outbound.Send.
  rewrite (Send_shift_due_almost_always now c Hnow Hexp Hnear).
  destruct (ShiftIntroduction_events c) as [_ Hlast].
  destruct (OutboundContext.ShiftIntroduction c) as [c1 evs2]. simpl in *.
  assert (OutboundContext.ManualRebuild 2 ∈ evs2) as Hin.
  { destruct evs2 as [|ev evs2] using rev_ind; [done|].
    rewrite last_snoc in Hlast. injection Hlast as ->. set_solver. }
  assert (forall evs1 : list OutboundContext.Event,
            Outbound.Call (OutboundContext.ManualRebuild 2)
            ∈ Outbound.Call <$> (evs1 ++ evs2)) as Hcall.
  { intros evs1. apply list_elem_of_fmap. eexists. split; [done|]. set_solver. }
  destruct (GetPathByRouter _) as [path|] eqn:Hpath; simpl.
  - split; [done|]. split; [set_solver|]. intros path' [= <-]. apply last_snoc.
  - split; [done|]. split; [apply Hcall | intros path' [=]].
Qed.

Lemma Send_always_shifts_witness :
  (Outbound.Send 1000 None (fun _ => Some 4) Examples.ctx_far).1
  = (OutboundContext.ShiftIntroduction Examples.ctx_far).1.
Proof.
  apply (Send_always_shifts 1000 None (fun _ => Some 4) Examples.ctx_far).
  - vm_compute. split; congruence.
  - vm_compute. split; congruence.
  - vm_compute. reflexivity.
Defined.

(** For instance, with 99 seconds left on the selected introduction and no
    expired introduction in the introset, a Send at time 1000 still runs
    ShiftIntroduction and asks for the rebuild. *)
Example Send_shifts_unexpired :
  Outbound.Send 1000 None (fun _ => Some 4) Examples.ctx_far
  = (Examples.ctx_far,
     [Outbound.Call (OutboundContext.EnsureRouterIsKnown 1);
      Outbound.Call (OutboundContext.ManualRebuild 2);
      Outbound.Transfer 1 4]).
Proof. reflexivity. Qed.

(** ** Expiry over successive ticks *)

(** Over two successive runs of the "expire pending tx" block, at any two
    times, the handler of a pending lookup is called at most once: a
    lookup that timed out in the first run is gone in the second. *)
Theorem Tick_expire_pending_tx_at_most_once (now1 now2 : llarp_time_t) (e : Endpoint.t)
    (k : Z) :
  (length (Endpoint.handler_calls k
             ((Endpoint.Tick_expire_pending_tx now1 e).2
              ++ (Endpoint.Tick_expire_pending_tx now2
                    (Endpoint.Tick_expire_pending_tx now1 e).1).2)) <= 1)%nat
  /\ (Endpoint.handler_calls k (Endpoint.Tick_expire_pending_tx now1 e).2 = [[]] ->
      Endpoint.handler_calls k
        (Endpoint.Tick_expire_pending_tx now2 (Endpoint.Tick_expire_pending_tx now1 e).1).2
      = []).
Proof.
  destruct (Tick_expire_pending_tx_spec now1 e k) as [Htab1 Hcalls1].
  destruct (Tick_expire_pending_tx_spec now2 (Endpoint.Tick_expire_pending_tx now1 e).1 k)
    as [_ Hcalls2].
  rewrite handler_calls_app, Hcalls1, Hcalls2, Htab1.
  destruct (expiry_of now1 (Endpoint.m_PendingLookups e !! k)) eqn:H1; simpl.
  - split; [lia | done].
  - split; [|done].
    destruct (expiry_of now2 (Endpoint.m_PendingLookups e !! k)); simpl; lia.
Qed.

(** ** CachedTagResult *)

Lemma filter_keeps_all {A} (P : A -> Prop) `{forall x, Decision (P x)} (l : list A) :
  filter P l = l <-> Forall P l.
Proof.
  split.
  - intros Heq. apply Forall_forall. intros x Hx. rewrite <- Heq in Hx.
    by apply list_elem_of_filter in Hx as [HP _].
  - induction 1 as [|x l HP _ IH]; [done|]. by rewrite filter_cons_True, IH.
Qed.

Lemma Expire_loop_filter (now : llarp_time_t) (itr kept : list IntroSet.t)
    (lastModified : llarp_time_t) :
  CachedTagResult.Expire_loop now itr kept lastModified
  = (kept ++ filter (fun s => IntroSet.HasExpiredIntros now s = false) itr,
     if decide (Forall (fun s => IntroSet.HasExpiredIntros now s = false) itr)
     then lastModified else now).
Proof.
  revert kept lastModified. induction itr as [|s itr IH]; intros kept lastModified.
  - cbn [CachedTagResult.Expire_loop]. rewrite filter_nil, app_nil_r.
    case_decide as Hall; [done|]. exfalso. apply Hall. constructor.
  - cbn [CachedTagResult.Expire_loop].
    destruct (IntroSet.HasExpiredIntros now s) eqn:Hs; rewrite IH.
    + rewrite filter_cons_False by congruence. f_equal.
      destruct (decide (Forall (fun s0 => IntroSet.HasExpiredIntros now s0 = false)
                          (s :: itr))) as [Hall | Hnot].
      * apply Forall_cons in Hall as [Hs' _]. congruence.
      * by destruct (decide _).
    + rewrite filter_cons_True by done. rewrite <- app_assoc. f_equal.
      destruct (decide (Forall (fun s0 => IntroSet.HasExpiredIntros now s0 = false) itr))
        as [Hall | Hnot]; case_decide as Hall'; try done.
      * exfalso. apply Hall'. by constructor.
      * exfalso. apply Hnot. by apply Forall_cons in Hall' as [_ ?].
Qed.

(** Expire(now) keeps exactly the stored introsets without an introduction
    that has expired at now, in their order; lastModified becomes now if an
    introset was removed and is unchanged otherwise; a second Expire at the
    same time changes nothing. *)
Theorem CachedTagResult_Expire_spec (now : llarp_time_t) (c : CachedTagResult.t) :
  CachedTagResult.result (CachedTagResult.Expire now c)
    = filter (fun s => IntroSet.HasExpiredIntros now s = false) (CachedTagResult.result c)
  /\ (forall s, s ∈ CachedTagResult.result (CachedTagResult.Expire now c) ->
        IntroSet.HasExpiredIntros now s = false)
  /\ CachedTagResult.lastModified (CachedTagResult.Expire now c)
     = (if decide (CachedTagResult.result (CachedTagResult.Expire now c)
                   = CachedTagResult.result c)
        then CachedTagResult.lastModified c else now)
  /\ CachedTagResult.tag (CachedTagResult.Expire now c) = CachedTagResult.tag c
  /\ CachedTagResult.lastRequest (CachedTagResult.Expire now c)
     = CachedTagResult.lastRequest c
  /\ CachedTagResult.Expire now (CachedTagResult.Expire now c) = CachedTagResult.Expire now c.
Proof.
  assert (forall c' : CachedTagResult.t,
            CachedTagResult.Expire now c'
            = CachedTagResult.mk (CachedTagResult.tag c')
                (filter (fun s => IntroSet.HasExpiredIntros now s = false)
                   (CachedTagResult.result c'))
                (if decide (Forall (fun s => IntroSet.HasExpiredIntros now s = false)
                              (CachedTagResult.result c'))
                 then CachedTagResult.lastModified c' else now)
                (CachedTagResult.lastRequest c')) as Hspec.
  { intros c'. unfold CachedTagResult.Expire. by rewrite Expire_loop_filter. }
  rewrite !Hspec. simpl. split; [done|]. split.
  - intros s Hs. by apply list_elem_of_filter in Hs as [? _].
  - split.
    + destruct (decide (Forall _ (CachedTagResult.result c))) as [Hall | Hnot].
      * rewrite decide_True; [done|]. by apply filter_keeps_all.
      * rewrite decide_False; [done|]. intros Heq. by apply filter_keeps_all in Heq.
    + split; [done|]. split; [done|].
      assert (Forall (fun s => IntroSet.HasExpiredIntros now s = false)
                (filter (fun s => IntroSet.HasExpiredIntros now s = false)
                   (CachedTagResult.result c))) as Hkept.
      { apply Forall_forall. intros s Hs. by apply list_elem_of_filter in Hs as [? _]. }
      rewrite (decide_True (P := Forall _ (filter _ _))) by done.
      f_equal. by apply filter_keeps_all.
Qed.

Example CachedTagResult_Expire_example :
  CachedTagResult.Expire 2000 Scenarios.tag_results
  = CachedTagResult.mk 7 [Examples.introset_of Examples.alice [Examples.intro_a] 1 1] 2000 50.
Proof. reflexivity. Qed.

Lemma HandleResponse_loop_spec (same : IntroSet.t -> IntroSet.t -> bool)
    (now : llarp_time_t) (introsets : list IntroSet.t) (c : CachedTagResult.t) :
  let c' := CachedTagResult.HandleResponse_loop same now introsets c in
  CachedTagResult.tag c' = CachedTagResult.tag c
  /\ CachedTagResult.lastRequest c' = CachedTagResult.lastRequest c
  /\ CachedTagResult.result c `prefix_of` CachedTagResult.result c'
  /\ (forall x, x ∈ introsets ->
        exists y, y ∈ CachedTagResult.result c' /\ (y = x \/ same x y = true))
  /\ (forall y, y ∈ CachedTagResult.result c' ->
        y ∈ CachedTagResult.result c \/ y ∈ introsets)
  /\ ((CachedTagResult.result c' = CachedTagResult.result c
       /\ CachedTagResult.lastModified c' = CachedTagResult.lastModified c)
      \/ ((length (CachedTagResult.result c) < length (CachedTagResult.result c'))%nat
          /\ CachedTagResult.lastModified c' = now)).
Proof.
  revert c. induction introsets as [|x rest IH]; intros c; simpl.
  - repeat split; try done.
    + intros x Hx. by apply elem_of_nil in Hx.
    + intros y Hy. by left.
    + by left.
  - destruct (existsb (same x) (CachedTagResult.result c)) eqn:Hex.
    + destruct (IH c) as (Ht & Hr & Hpre & Hrep & Horg & Hmod).
      split; [done|]. split; [done|]. split; [done|]. split; [|split; [|done]].
      * intros z [-> | Hz]%elem_of_cons; [|by apply Hrep].
        apply existsb_exists in Hex as (y & Hy & Hsame).
        exists y. split; [|by right].
        apply list_elem_of_In in Hy. destruct Hpre as [k ->].
        apply elem_of_app. by left.
      * intros y Hy. destruct (Horg y Hy); [by left | right].
        by apply list_elem_of_further.
    + destruct (IH (CachedTagResult.mk (CachedTagResult.tag c)
                      (CachedTagResult.result c ++ [x]) now (CachedTagResult.lastRequest c)))
        as (Ht & Hr & Hpre & Hrep & Horg & Hmod). simpl in *.
      split; [done|]. split; [done|]. split; [|split; [|split]].
      * etrans; [|exact Hpre]. by apply prefix_app_r.
      * intros z [-> | Hz]%elem_of_cons; [|by apply Hrep].
        exists x. split; [|by left]. destruct Hpre as [k ->].
        rewrite !elem_of_app, list_elem_of_singleton. auto.
      * intros y Hy. destruct (Horg y Hy) as [Hin | Hin].
        -- apply elem_of_app in Hin as [Hin | ->%list_elem_of_singleton];
             [by left | right; apply list_elem_of_here].
        -- right. by apply list_elem_of_further.
      * right. destruct Hmod as [[Heq Hlm] | [Hlt Hlm]].
        -- split; [|done]. rewrite Heq, length_app. simpl. lia.
        -- split; [|done]. rewrite length_app in Hlt. simpl in Hlt. lia.
Qed.

(** HandleResponse returns true and only adds to the cached result: what
    was stored stays, every introset of the response is afterwards stored
    or has an equivalent that is, and nothing is stored that was neither
    stored before nor in the response. lastModified is set to the clock
    exactly when the result has grown; a response that brings nothing new
    leaves the cache as it was. This holds for whatever equivalence the
    order of the set induces. *)
Theorem CachedTagResult_HandleResponse_grows (same : IntroSet.t -> IntroSet.t -> bool)
    (env : Endpoint.Env) (introsets : list IntroSet.t) (c : CachedTagResult.t) :
  (CachedTagResult.HandleResponse same env introsets c).1 = true
  /\ CachedTagResult.result c
     `prefix_of` CachedTagResult.result (CachedTagResult.HandleResponse same env introsets c).2
  /\ (forall x, x ∈ introsets ->
        exists y,
          y ∈ CachedTagResult.result (CachedTagResult.HandleResponse same env introsets c).2
          /\ (y = x \/ same x y = true))
  /\ (forall y,
        y ∈ CachedTagResult.result (CachedTagResult.HandleResponse same env introsets c).2 ->
        y ∈ CachedTagResult.result c \/ y ∈ introsets)
  /\ ((CachedTagResult.HandleResponse same env introsets c).2 = c
      \/ ((length (CachedTagResult.result c)
           < length (CachedTagResult.result
                       (CachedTagResult.HandleResponse same env introsets c).2))%nat
          /\ CachedTagResult.lastModified
               (CachedTagResult.HandleResponse same env introsets c).2
             = Endpoint.llarp_time_now_ms env)).
Proof.
  unfold CachedTagResult.HandleResponse. simpl.
  destruct (HandleResponse_loop_spec same (Endpoint.llarp_time_now_ms env) introsets c)
    as (Ht & Hr & Hpre & Hrep & Horg & Hmod).
  split; [done|]. split; [done|]. split; [done|]. split; [done|].
  destruct Hmod as [[Heq Hlm] | Hgrown]; [left | by right].
  destruct (CachedTagResult.HandleResponse_loop _ _ _ _) as [t r lm lr].
  destruct c. simpl in *. congruence.
Qed.

Example CachedTagResult_HandleResponse_same_owner :
  CachedTagResult.HandleResponse Scenarios.same_owner Examples.env0
    [Examples.bob_second] Scenarios.tag_results
  = (true, Scenarios.tag_results).
Proof. reflexivity. Qed.

(** ** Pending router lookups *)

(** EnsureRouterIsKnown keeps at most one lookup per router in flight: it
    never replaces or removes a pending entry, it sends nothing for the
    zero router, for a router the node database knows and for a router
    that is pending, and once a router is pending every further call for
    it, in whatever surroundings, sends nothing and changes nothing. *)
Theorem EnsureRouterIsKnown_single_flight (env : Endpoint.Env) (nodedb : RouterID -> bool)
    (job : Routers.RouterLookupJob) (router : RouterID) (e : Endpoint.t)
    (pending : gmap Z Routers.RouterLookupJob) :
  (forall k j, pending !! k = Some j ->
     (Routers.EnsureRouterIsKnown env nodedb job router e pending).1 !! k = Some j)
  /\ (router = 0 \/ nodedb router = true \/ is_Some (pending !! router) ->
      Routers.EnsureRouterIsKnown env nodedb job router e pending = (pending, []))
  /\ (is_Some ((Routers.EnsureRouterIsKnown env nodedb job router e pending).1 !! router) ->
      forall (env2 : Endpoint.Env) (nodedb2 : RouterID -> bool)
             (job2 : Routers.RouterLookupJob) (e2 : Endpoint.t),
        Routers.EnsureRouterIsKnown env2 nodedb2 job2 router e2
          (Routers.EnsureRouterIsKnown env nodedb job router e pending).1
        = ((Routers.EnsureRouterIsKnown env nodedb job router e pending).1, [])).
Proof.
  split; [|split].
  - intros k j Hk. unfold Routers.EnsureRouterIsKnown.
    destruct (router =? 0); [done|]. destruct (nodedb router); [done|].
    destruct (pending !! router) eqn:Hp; [done|].
    destruct (Endpoint.GetEstablishedPathClosestTo env router) as [path|]; [|done].
    destruct (Endpoint.SendRoutingMessage env path); [|done]. simpl.
    rewrite lookup_insert_ne; [done|]. intros ->.
    assert (Some j = None) as Habs by (rewrite <- Hk; exact Hp). discriminate Habs.
  - intros Hskip. unfold Routers.EnsureRouterIsKnown.
    destruct (router =? 0) eqn:Hz; [done|].
    destruct (nodedb router) eqn:Hdb; [done|].
    destruct (pending !! router) eqn:Hp; [done|].
    destruct Hskip as [-> | [? | [? ?]]]; done.
  - intros [j Hj] env2 nodedb2 job2 e2.
    unfold Routers.EnsureRouterIsKnown at 1. rewrite Hj.
    by repeat case_match.
Qed.

(** A registration that has gone out is not repeated. *)
Example EnsureRouterIsKnown_second_call :
  Routers.EnsureRouterIsKnown Scenarios.env_path (fun _ => false) Scenarios.job_short 6
    Examples.empty_endpoint ∅
  = ({[ 6 := Scenarios.job_short ]}, [Routers.SendFindRouter 6 42 9])
  /\ Routers.EnsureRouterIsKnown Scenarios.env_path (fun _ => false) Scenarios.job_short 6
       Examples.empty_endpoint {[ 6 := Scenarios.job_short ]}
     = ({[ 6 := Scenarios.job_short ]}, []).
Proof. split; reflexivity. Qed.

Lemma Tick_expire_routers_loop_table (now : llarp_time_t)
    (itr : list (Z * Routers.RouterLookupJob)) (pending : gmap Z Routers.RouterLookupJob)
    (k : Z) :
  NoDup itr.*1 ->
  Routers.Tick_expire_routers_loop now itr pending !! k =
    match (list_to_map itr : gmap Z Routers.RouterLookupJob) !! k with
    | Some job => if Routers.IsExpired job now then None else pending !! k
    | None => pending !! k
    end.
Proof.
  revert pending. induction itr as [|[router job] rest IH]; intros pending Hnd.
  - simpl. by rewrite lookup_empty.
  - apply NoDup_cons in Hnd as [Hfresh Hnd]. simpl in Hfresh. simpl.
    destruct (decide (router = k)) as [->|Hne].
    + rewrite lookup_insert_eq.
      apply (not_elem_of_list_to_map_1 (M := gmap Z)) in Hfresh.
      destruct (Routers.IsExpired job now) eqn:Hout; rewrite IH, Hfresh by done;
        [apply lookup_delete_eq | done].
    + rewrite lookup_insert_ne by done.
      destruct (Routers.IsExpired job now) eqn:Hout; rewrite IH by done; [|done].
      rewrite lookup_delete_ne by done. done.
Qed.

(** The "expire pending router lookups" block of Tick removes exactly the
    entries whose job has expired at now; and for a router whose entry it
    removed, the next EnsureRouterIsKnown sends a new request, where before
    the expiry it would have sent none. *)
Theorem Tick_expire_routers_reopens (env : Endpoint.Env) (nodedb : RouterID -> bool)
    (job job2 : Routers.RouterLookupJob) (router : Z) (path : Path)
    (e : Endpoint.t) (now : llarp_time_t) (pending : gmap Z Routers.RouterLookupJob) :
  pending !! router = Some job ->
  Routers.IsExpired job now = true ->
  router <> 0 -> nodedb router = false ->
  Endpoint.GetEstablishedPathClosestTo env router = Some path ->
  Endpoint.SendRoutingMessage env path = true ->
  (forall k,
     Routers.Tick_expire_routers now pending !! k
     = match pending !! k with
       | Some j => if Routers.IsExpired j now then None else Some j
       | None => None
       end)
  /\ Routers.EnsureRouterIsKnown env nodedb job2 router e pending = (pending, [])
  /\ Routers.EnsureRouterIsKnown env nodedb job2 router e
       (Routers.Tick_expire_routers now pending)
     = (<[router := job2]> (Routers.Tick_expire_routers now pending),
        [Routers.SendFindRouter router (Endpoint.GenTXID env e) path]).
Proof.
  intros Hp Hexp Hnz Hdb Hpath Hsend.
  assert (forall k,
            Routers.Tick_expire_routers now pending !! k
            = match pending !! k with
              | Some j => if Routers.IsExpired j now then None else Some j
              | None => None
              end) as Htable.
  { intros k. unfold Routers.Tick_expire_routers.
    rewrite Tick_expire_routers_loop_table by apply NoDup_fst_map_to_list.
    rewrite list_to_map_to_list. destruct (pending !! k) as [j|]; [|done].
    by destruct (Routers.IsExpired j now). }
  split; [done|]. apply Z.eqb_neq in Hnz.
  unfold Routers.EnsureRouterIsKnown. unfold RouterID in *.
  rewrite Hnz, Hdb, Hp, Htable, Hp, Hexp, Hpath, Hsend.
  done.
Qed.

Lemma Tick_expire_routers_reopens_witness :
  Routers.EnsureRouterIsKnown Scenarios.env_path (fun _ => false) Scenarios.job_short 6
    Examples.empty_endpoint
    (Routers.Tick_expire_routers 20000 {[ 6 := Scenarios.job_short ]})
  = (<[6 := Scenarios.job_short]>
       (Routers.Tick_expire_routers 20000 {[ 6 := Scenarios.job_short ]}),
     [Routers.SendFindRouter 6
        (Endpoint.GenTXID Scenarios.env_path Examples.empty_endpoint) 9]).
Proof.
  apply (Tick_expire_routers_reopens Scenarios.env_path (fun _ => false)
           Scenarios.job_short Scenarios.job_short 6 9 Examples.empty_endpoint 20000
           {[ 6 := Scenarios.job_short ]}); try reflexivity.
  discriminate.
Defined.
